(** * scmdata: filters, offsets and groupby

    A shallow embedding of [scmdata.filters], [scmdata.offsets] and
    [scmdata.groupby], with the properties of the metadata pattern matcher,
    the time-component matchers, the calendar range generator and the
    group-by constructor.

    Python strings are lists of characters and Python integers are [Z].
    Floats reach the pattern matcher through an interface of the operations
    it applies to them, and the time matchers as rationals.  A call that
    can raise returns a [result]. *)

From Stdlib Require Import List Ascii String ZArith QArith Bool Lia.
Import ListNotations.

Local Open Scope Z_scope.

(** ** Outcomes of a Python call *)

Inductive exn : Type :=
| ValueError
| TypeError
| IndexError
| AttributeError.

(** [Unmodelled] marks an input that leaves the fragment of the [re]
    module embedded below (or that [re.compile] rejects), and a loop that
    has used up its fuel, which [generate_range_total] excludes. *)
Inductive result (A : Type) : Type :=
| Ok (a : A)
| Raise (e : exn)
| Unmodelled.

Arguments Ok {A} a.
Arguments Raise {A} e.
Arguments Unmodelled {A}.

Definition bind {A B : Type} (m : result A) (k : A -> result B) : result B :=
  match m with
  | Ok a => k a
  | Raise e => Raise e
  | Unmodelled => Unmodelled
  end.

Notation "x <- m ;; k" := (bind m (fun x => k))
  (at level 61, m at next level, right associativity).

(** A list comprehension whose body can raise: the first failure wins. *)
Fixpoint traverse {A B : Type} (f : A -> result B) (l : list A)
  : result (list B) :=
  match l with
  | [] => Ok []
  | a :: l' => b <- f a ;; bs <- traverse f l' ;; Ok (b :: bs)
  end.

(** ** Python strings *)

Module PyStr.

Definition pystr : Type := list ascii.

(** A literal. *)
Definition str (s : string) : pystr := list_ascii_of_string s.

Definition eqb (s t : pystr) : bool :=
  if list_eq_dec ascii_dec s t then true else false.

Definition char_in (c : ascii) (s : pystr) : bool :=
  existsb (Ascii.eqb c) s.

Fixpoint startswith (p s : pystr) : bool :=
  match p, s with
  | [], _ => true
  | _ :: _, [] => false
  | a :: p', b :: s' => Ascii.eqb a b && startswith p' s'
  end.

(** [replace_from old new skip s]: the scan of [str.replace] for a non-empty
    [old]; [skip] counts the characters of an occurrence still to drop. *)
Fixpoint replace_from (old new : pystr) (skip : nat) (s : pystr) : pystr :=
  match s with
  | [] => []
  | c :: s' =>
    match skip with
    | S k => replace_from old new k s'
    | O =>
      if startswith old s
      then new ++ replace_from old new (Nat.pred (List.length old)) s'
      else c :: replace_from old new O s'
    end
  end.

(** [s.replace(old, new)]: every occurrence, left to right, not overlapping;
    an empty [old] matches before every character and at the end. *)
Definition replace (old new s : pystr) : pystr :=
  match old with
  | [] => new ++ flat_map (fun c => c :: new) s
  | _ :: _ => replace_from old new O s
  end.

(** Number of occurrences found by the same scan. *)
Fixpoint count_from (sep : pystr) (skip : nat) (s : pystr) : nat :=
  match s with
  | [] => O
  | _ :: s' =>
    match skip with
    | S k => count_from sep k s'
    | O =>
      if startswith sep s
      then S (count_from sep (Nat.pred (List.length sep)) s')
      else count_from sep O s'
    end
  end.

(** [len(re.compile(re.escape(sep)).findall(s))]: the separator is matched
    as a literal; the empty pattern matches at every position. *)
Definition findall_count (sep s : pystr) : nat :=
  match sep with
  | [] => S (List.length s)
  | _ :: _ => count_from sep O s
  end.

(** [s.split(c)] for a one-character separator. *)
Fixpoint split (c : ascii) (s : pystr) : list pystr :=
  match s with
  | [] => [[]]
  | a :: s' =>
    if Ascii.eqb a c then [] :: split c s'
    else match split c s' with
         | [] => [[a]]
         | w :: ws => (a :: w) :: ws
         end
  end.

(** [t in s] for two strings. *)
Fixpoint contains (t s : pystr) : bool :=
  startswith t s ||
  match s with
  | [] => false
  | _ :: s' => contains t s'
  end.

Definition lower_char (c : ascii) : ascii :=
  let n := nat_of_ascii c in
  if (Nat.leb 65 n && Nat.leb n 90)%bool then ascii_of_nat (n + 32) else c.

Definition lower (s : pystr) : pystr := map lower_char s.

End PyStr.

Import PyStr.

(** ** The fragment of [re] the pseudo-regexp syntax produces *)

Module Re.

Inductive atom : Type :=
| Lit (c : ascii)     (* a character, written plainly or after a backslash *)
| Dot.                (* [.]: any character except a line feed *)

Inductive item : Type :=
| One (a : atom)
| Star (a : atom)     (* [a*] *)
| Eol.                (* [$] *)

Definition regex : Type := list item.

Definition newline : ascii := ascii_of_nat 10.

Definition is_alnum (c : ascii) : bool :=
  let n := nat_of_ascii c in
  ((Nat.leb 48 n && Nat.leb n 57) || (Nat.leb 65 n && Nat.leb n 90)
   || (Nat.leb 97 n && Nat.leb n 122))%bool.

(** Characters with a meaning of their own that the fragment leaves out. *)
Definition unsupported (c : ascii) : bool :=
  char_in c (str "^+?()[]{}|").

(** [re.compile]: [None] outside the fragment (a class, a group, an
    alternation, [+], [?], [^], a letter or digit after a backslash, a
    quantifier with nothing to repeat). *)
Fixpoint compile (s : pystr) : option regex :=
  match s with
  | [] => Some []
  | c :: r =>
    if Ascii.eqb c "\"%char then
      match r with
      | [] => None
      | e :: r' =>
        if is_alnum e then None
        else match r' with
             | "*"%char :: r'' => option_map (cons (Star (Lit e))) (compile r'')
             | _ => option_map (cons (One (Lit e))) (compile r')
             end
      end
    else if Ascii.eqb c "$"%char then option_map (cons Eol) (compile r)
    else if Ascii.eqb c "*"%char then None
    else if unsupported c then None
    else
      let a := if Ascii.eqb c "."%char then Dot else Lit c in
      match r with
      | "*"%char :: r' => option_map (cons (Star a)) (compile r')
      | _ => option_map (cons (One a)) (compile r)
      end
  end.

Definition atom_ok (a : atom) (c : ascii) : bool :=
  match a with
  | Lit x => Ascii.eqb x c
  | Dot => negb (Ascii.eqb c newline)
  end.

(** [$] without [re.MULTILINE]: at the end of the string, or just before a
    line feed that ends the string. *)
Definition at_eol (s : pystr) : bool :=
  match s with
  | [] => true
  | [c] => Ascii.eqb c newline
  | _ => false
  end.

(** [pattern.match(s) is not None]: the pattern matches a prefix of [s]. *)
Fixpoint matches (r : regex) : pystr -> bool :=
  match r with
  | [] => fun _ => true
  | One a :: r' =>
    fun s => match s with
             | [] => false
             | c :: s' => atom_ok a c && matches r' s'
             end
  | Star a :: r' =>
    fix star (s : pystr) : bool :=
      matches r' s ||
      match s with
      | [] => false
      | c :: s' => atom_ok a c && star s'
      end
  | Eol :: r' => fun s => at_eol s && matches r' s
  end.

End Re.

(** ** scmdata.filters *)

Module Filters.

Import Re.

Definition HIERARCHY_SEPARATOR : pystr := str "|".

(** *** Metadata columns and match values *)

Class Builtins (F : Type) : Type := {
  float_str : F -> pystr;
  float_of_str : pystr -> option F;
  float_eqb : F -> F -> bool;
  isclose : F -> F -> bool;
  int_of_str : pystr -> option Z
}.

Section PatternMatch.

(** Finite floats and the conversions the matcher applies to them come from
    Python and numpy: [float_str] is [str] of a float, [float_of_str] is
    [float] of a string ([None]: [ValueError]), [float_eqb] is [==],
    [isclose] is [numpy.isclose], [int_of_str] is [int] of a string
    ([None]: [ValueError]). *)
Context {F : Type} {ops : Builtins F}.

(** A category label. *)
Inductive label : Type :=
| LStr (s : pystr)
| LNum (x : F).

(** A [pandas.CategoricalIndex]: the distinct labels, whether their dtype is
    a string dtype, and one code per row, [-1] where the category is
    missing. *)
Record CategoricalIndex : Type := mkIndex {
  categories : list label;
  string_dtype : bool;
  codes : list Z
}.

(** A [MetadataValue] to match: a string, not-a-number, or a finite number. *)
Inductive value : Type :=
| VStr (s : pystr)
| VNaN
| VNum (x : F).

(** The [values] argument: one value or an iterable of values. *)
Inductive values_arg : Type :=
| Single (v : value)
| Many (vs : list value).

(** The [level] argument of [find_depth]. *)
Inductive level_arg : Type :=
| LvInt (n : Z)
| LvStr (s : pystr).

Definition py_str_label (m : label) : pystr :=
  match m with
  | LStr s => s
  | LNum x => float_str x
  end.

Definition py_str_value (v : value) : pystr :=
  match v with
  | VStr s => s
  | VNaN => str "nan"
  | VNum x => float_str x
  end.

Definition label_eqb (a b : label) : bool :=
  match a, b with
  | LStr s, LStr t => PyStr.eqb s t
  | LNum x, LNum y => float_eqb x y
  | _, _ => false
  end.

Definition row_label (meta_col : CategoricalIndex) (c : Z) : option label :=
  if c <? 0 then None else nth_error (categories meta_col) (Z.to_nat c).

(** [meta_col.isin(subset)]: a row is in when it carries a category and the
    category is one of [subset]. *)
Definition isin (meta_col : CategoricalIndex) (subset : list label)
  : list bool :=
  map (fun c => match row_label meta_col c with
                | Some m => existsb (label_eqb m) subset
                | None => false
                end) (codes meta_col).

(** [matches |= other], element by element. *)
Fixpoint mask_or (a b : list bool) : list bool :=
  match a, b with
  | x :: a', y :: b' => (x || y) :: mask_or a' b'
  | _, _ => a
  end.

(** *** find_depth *)

(** The depth test chosen from [level]. *)
Definition depth_test (level : level_arg) : result (Z -> bool) :=
  match level with
  | LvInt n => Ok (fun x => n =? x)
  | LvStr s =>
    match rev s with
    | [] => Raise IndexError
    | c :: front =>
      if Ascii.eqb c "-"%char then
        match int_of_str (rev front) with
        | Some n => Ok (fun x => n >=? x)
        | None => Raise ValueError
        end
      else if Ascii.eqb c "+"%char then
        match int_of_str (rev front) with
        | Some n => Ok (fun x => n <=? x)
        | None => Raise ValueError
        end
      else Raise ValueError
    end
  end.

Definition find_depth (meta_col : CategoricalIndex) (s : pystr)
  (level : level_arg) (separator : pystr) : result (list label) :=
  test <- depth_test level ;;
  let regexp := replace (str "*") [] s in
  let apply_test (val : label) : result bool :=
    match val with
    | LStr v =>
      Ok (test (Z.of_nat (findall_count separator (replace regexp [] v))))
    | LNum _ => Raise AttributeError
    end in
  keep <- traverse apply_test (categories meta_col) ;;
  Ok (map fst (filter snd (combine (categories meta_col) keep))).

(** *** pattern_match *)

(** The pseudo-regexp built from a value by the chain of replacements. *)
Definition pseudo_regexp (s : pystr) : pystr :=
  (replace (str "^") (str "\^")
  (replace (str "$") (str "\$")
  (replace (str ")") (str "\)")
  (replace (str "(") (str "\(")
  (replace (str "+") (str "\+")
  (replace (str "*") (str ".*")
  (replace (str ".") (str "\.")
  (replace (str "|") (str "\|") s)))))))) ++ str "$".

(** The labels the compiled pattern selects: [pattern.match(str(m))]. *)
Definition glob_subset (cats : list label) (pattern : regex) : list label :=
  filter (fun m => matches pattern (py_str_label m)) cats.

Definition use_string_comparison (meta_col : CategoricalIndex) (s : value)
  : bool :=
  match s with
  | VStr [] => false          (* comparison_value = nan *)
  | VStr _ => true
  | VNaN => false
  | VNum _ => string_dtype meta_col
  end.

(** [meta_col.astype(float)]: the categories are converted, then taken row
    by row; a missing row is not-a-number ([None]). *)
Definition label_float (m : label) : result F :=
  match m with
  | LNum x => Ok x
  | LStr s =>
    match float_of_str s with
    | Some x => Ok x
    | None => Raise ValueError
    end
  end.

Definition astype_float (meta_col : CategoricalIndex)
  : result (list (option F)) :=
  cats <- traverse label_float (categories meta_col) ;;
  Ok (map (fun c => if c <? 0 then None else nth_error cats (Z.to_nat c))
          (codes meta_col)).

(** [comparison_value == t] for a string [t]. *)
Definition value_is (s : value) (t : pystr) : bool :=
  match s with
  | VStr u => PyStr.eqb u t
  | _ => false
  end.

Definition is_none {A : Type} (o : option A) : bool :=
  match o with
  | None => true
  | Some _ => false
  end.

(** One turn of the loop over the values. *)
Definition match_value (meta_col : CategoricalIndex)
  (level : option level_arg) (regexp : bool) (separator : pystr)
  (mtch : list bool) (s : value) : result (list bool) :=
  if use_string_comparison meta_col s then
    if negb regexp && value_is s (str "*") && is_none level
    then Ok (map (fun _ => true) mtch)
    else
      let _regexp := pseudo_regexp (py_str_value s) in
      match compile (if regexp then py_str_value s else _regexp) with
      | None => Unmodelled
      | Some pattern =>
        let subset := glob_subset (categories meta_col) pattern in
        subset' <-
          match level with
          | None => Ok subset
          | Some lv =>
            depth <- find_depth meta_col (py_str_value s) lv separator ;;
            Ok (filter (fun m => existsb (label_eqb m) depth) subset)
          end ;;
        Ok (mask_or mtch (isin meta_col subset'))
      end
  else
    match s with
    | VNum x =>
      fl <- astype_float meta_col ;;
      Ok (mask_or mtch
            (map (fun y => match y with
                           | Some y' => isclose x y'
                           | None => false
                           end) fl))
    | _ => Ok (mask_or mtch (map (fun c => c =? -1) (codes meta_col)))
    end.

Fixpoint match_values (meta_col : CategoricalIndex)
  (level : option level_arg) (regexp : bool) (separator : pystr)
  (mtch : list bool) (vs : list value) : result (list bool) :=
  match vs with
  | [] => Ok mtch
  | s :: vs' =>
    m <- match_value meta_col level regexp separator mtch s ;;
    match_values meta_col level regexp separator m vs'
  end.

Definition pattern_match (meta_col : CategoricalIndex) (values : values_arg)
  (level : option level_arg) (regexp : bool) (separator : pystr)
  : result (list bool) :=
  let mtch := map (fun _ => false) (codes meta_col) in
  let _values := match values with
                 | Single v => [v]
                 | Many vs => vs
                 end in
  match_values meta_col level regexp separator mtch _values.

(** The column of [rows] rows that all carry the one category "a|b|c". *)
Definition abc_column (sd : bool) (rows : nat) : CategoricalIndex :=
  mkIndex [LStr (str "a|b|c")] sd (repeat 0 rows).

End PatternMatch.

Arguments label F : clear implicits.
Arguments value F : clear implicits.
Arguments CategoricalIndex F : clear implicits.

(** [int] of a string of decimal digits with an optional sign. *)
Fixpoint digits (s : pystr) (acc : Z) : option Z :=
  match s with
  | [] => Some acc
  | c :: s' =>
    let d := nat_of_ascii c in
    if (Nat.leb 48 d && Nat.leb d 57)%bool
    then digits s' (10 * acc + Z.of_nat (d - 48))
    else None
  end.

Definition int_of_digits (s : pystr) : option Z :=
  match s with
  | [] => None
  | "-"%char :: (_ :: _) as s' => option_map Z.opp (digits s' 0)
  | "+"%char :: (_ :: _) as s' => digits s' 0
  | _ => digits s 0
  end.

(** *** The reading of a value as a glob *)

(** The characters the chain of replacements escapes. *)
Definition escaped (c : ascii) : bool := char_in c (str "|.+()$^").

(** A character other than the backslash, the question mark, the brackets
    and the braces: these the chain leaves as they are, and a regular
    expression gives them a meaning of their own. *)
Definition glob_char (c : ascii) : bool := negb (char_in c (str "\?[]{}")).

(** What the chain of replacements makes of one character. *)
Definition escape_char (c : ascii) : pystr :=
  if escaped c then ["\"%char; c]
  else if Ascii.eqb c "*"%char then str ".*"
  else [c].

(** The item a character of the value stands for. *)
Definition glob_item (c : ascii) : item :=
  if Ascii.eqb c "*"%char then Star Dot else One (Lit c).

(** The match the specification describes: "*" stands for any substring,
    every other character for itself, and the label is matched over its
    full extent. *)
Fixpoint glob_match (s : pystr) : pystr -> bool :=
  match s with
  | [] => fun m => match m with [] => true | _ :: _ => false end
  | c :: s' =>
    if Ascii.eqb c "*"%char then
      fix any (m : pystr) : bool :=
        glob_match s' m ||
        match m with
        | [] => false
        | _ :: m' => any m'
        end
    else
      fun m => match m with
               | [] => false
               | x :: m' => Ascii.eqb c x && glob_match s' m'
               end
  end.

Definition no_newline (m : pystr) : bool := negb (char_in newline m).

(** The next pattern character is not a quantifier. *)
Definition no_star_ahead (r : pystr) : Prop :=
  match r with
  | c :: _ => Ascii.eqb c "*" = false
  | [] => True
  end.

(** Columns and values that hold strings and not-a-number only. *)
#[export] Instance no_floats : Builtins Empty_set := {|
  float_str := fun x : Empty_set => match x with end;
  float_of_str := fun _ => None;
  float_eqb := fun (x _ : Empty_set) => match x with end;
  isclose := fun (x _ : Empty_set) => match x with end;
  int_of_str := int_of_digits
|}.

(** *** Time-component matchers *)

(** The values the time matchers receive: integers, finite floats, strings
    and lists of such values. *)
#[warnings="-register-all"] Inductive pyval : Type :=
| PInt (z : Z)
| PFloat (q : Q)
| PStr (s : pystr)
| PList (l : list pyval).

(** [a == b]. *)
Fixpoint py_eq (a b : pyval) : bool :=
  match a, b with
  | PInt x, PInt y => x =? y
  | PInt x, PFloat q => Qeq_bool (inject_Z x) q
  | PFloat q, PInt y => Qeq_bool q (inject_Z y)
  | PFloat p, PFloat q => Qeq_bool p q
  | PStr s, PStr t => PyStr.eqb s t
  | PList l, PList m =>
    (fix all2 (l : list pyval) (m : list pyval) : bool :=
       match l, m with
       | [], [] => true
       | x :: l', y :: m' => py_eq x y && all2 l' m'
       | _, _ => false
       end) l m
  | _, _ => false
  end.

(** [v in items]. *)
Definition py_in (v items : pyval) : result bool :=
  match items with
  | PList l => Ok (existsb (py_eq v) l)
  | PStr s =>
    match v with
    | PStr t => Ok (contains t s)
    | _ => Raise TypeError
    end
  | PInt _ | PFloat _ => Raise TypeError
  end.

Definition is_in (vals : list pyval) (items : pyval) : result (list bool) :=
  traverse (fun v => py_in v items) vals.

Definition is_int (v : pyval) : bool :=
  match v with
  | PInt _ => true
  | _ => false
  end.

(** [all(isinstance(y, int) for y in years)] for an iterable, [None] when
    [years] cannot be iterated. *)
Definition all_int (years : pyval) : option bool :=
  match years with
  | PList l => Some (forallb is_int l)
  | PStr s => Some (match s with [] => true | _ :: _ => false end)
  | PInt _ | PFloat _ => None
  end.

Definition years_match (data : list pyval) (years : pyval)
  : result (list bool) :=
  let years := if is_int years then PList [years] else years in
  let usable_int :=
    match all_int years with
    | Some b => b
    | None => is_int years
    end in
  if negb usable_int then Raise TypeError
  else is_in data years.

Definition hour_match (data : list pyval) (hours : pyval)
  : result (list bool) :=
  let hours_list := if is_int hours then PList [hours] else hours in
  is_in data hours_list.

(** [del l[i]]. *)
Fixpoint del_item {A : Type} (l : list A) (i : nat) : result (list A) :=
  match l, i with
  | [], _ => Raise IndexError
  | _ :: l', O => Ok l'
  | a :: l', S j => l'' <- del_item l' j ;; Ok (a :: l'')
  end.

Fixpoint del_items {A : Type} (l : list A) (to_delete : list nat)
  : result (list A) :=
  match to_delete with
  | [] => Ok l
  | i :: rest => l' <- del_item l i ;; del_items l' rest
  end.

(** [range(a, b + 1)]. *)
Definition range_incl (a b : Z) : list Z :=
  map (fun k => a + Z.of_nat k) (seq 0 (Z.to_nat (b + 1 - a))).

(** A conversion code together with the attribute read from the parsed
    time: [getattr(time.strptime(t, conv_code), strptime_attr)], [None]
    when [time.strptime] raises [ValueError]. *)
Definition converter : Type := pystr -> option Z.

(** [conv_strs]: the first conversion code that converts every string; a
    value that is not a string makes [time.strptime] raise [TypeError]. *)
Fixpoint conv_all (conv : converter) (strs : list pyval)
  : result (option (list Z)) :=
  match strs with
  | [] => Ok (Some [])
  | PStr t :: rest =>
    match conv t with
    | None => Ok None
    | Some z =>
      r <- conv_all conv rest ;;
      Ok (option_map (cons z) r)
    end
  | _ :: _ => Raise TypeError
  end.

Fixpoint conv_strs (strs_to_convert : list pyval) (conv_codes : list converter)
  : result (list Z) :=
  match conv_codes with
  | [] => Raise ValueError
  | conv :: rest =>
    r <- conv_all conv strs_to_convert ;;
    match r with
    | Some res => Ok res
    | None => conv_strs strs_to_convert rest
    end
  end.

(** The loop over [enumerate(times_list)]: the indices to delete and the
    integers to append. *)
Fixpoint scan_ranges (conv_codes : list converter) (i : nat)
  (times_list : list pyval) (to_delete : list nat) (to_append : list Z)
  : result (list nat * list Z) :=
  match times_list with
  | [] => Ok (to_delete, to_append)
  | timeset :: rest =>
    has_dash <- py_in (PStr (str "-")) timeset ;;
    if has_dash then
      match timeset with
      | PStr t =>
        ints <- conv_strs (map PStr (split "-"%char t)) conv_codes ;;
        match ints with
        | i0 :: i1 :: _ =>
          if i0 >? i1 then Raise ValueError
          else scan_ranges conv_codes (S i) rest (to_delete ++ [i])
                 (to_append ++ range_incl i0 i1)
        | _ => Raise IndexError
        end
      | _ => Raise AttributeError
      end
    else scan_ranges conv_codes (S i) rest to_delete to_append
  end.

Definition time_match (data : list pyval) (times : pyval)
  (conv_codes : list converter) : result (list bool) :=
  match times with
  | PFloat _ => Raise TypeError        (* [times_list[0]] on a float *)
  | _ =>
    let times_list :=
      match times with
      | PList l => l
      | _ => [times]
      end in
    match times_list with
    | [] => Raise IndexError
    | PStr _ :: _ =>
      found <- scan_ranges conv_codes O times_list [] [] ;;
      let (to_delete, to_append) := found in
      times_list' <- del_items times_list to_delete ;;
      converted <- conv_strs times_list' conv_codes ;;
      is_in data (PList (map PInt (converted ++ to_append)))
    | _ :: _ => is_in data (PList times_list)
    end
  end.

(** The calendar name tables of [time.strptime] in the C locale. *)
Definition month_abbr : list pystr :=
  map str ["jan"; "feb"; "mar"; "apr"; "may"; "jun";
           "jul"; "aug"; "sep"; "oct"; "nov"; "dec"]%string.

Definition month_name : list pystr :=
  map str ["january"; "february"; "march"; "april"; "may"; "june"; "july";
           "august"; "september"; "october"; "november"; "december"]%string.

Definition day_abbr : list pystr :=
  map str ["mon"; "tue"; "wed"; "thu"; "fri"; "sat"; "sun"]%string.

Definition day_name : list pystr :=
  map str ["monday"; "tuesday"; "wednesday"; "thursday"; "friday";
           "saturday"; "sunday"]%string.

Fixpoint index_of (t : pystr) (table : list pystr) (i : Z) : option Z :=
  match table with
  | [] => None
  | n :: rest => if PyStr.eqb t n then Some i else index_of t rest (i + 1)
  end.

(** [time.strptime] matches a name of the table whatever its case and
    accepts nothing before or after it. *)
Definition strptime_name (table : list pystr) (first : Z) : converter :=
  fun t => index_of (lower t) table first.

Definition month_match (data : list pyval) (months : pyval)
  : result (list bool) :=
  time_match data months
    [strptime_name month_abbr 1; strptime_name month_name 1].

Definition day_match (data : list pyval) (days : pyval)
  : result (list bool) :=
  time_match data days
    [strptime_name day_abbr 0; strptime_name day_name 0].

End Filters.

(** ** scmdata.offsets *)

Module Offsets.

(** A [cftime.datetime] is its six fields [timetuple()[:6]], read as the
    number of seconds from a fixed instant of the Gregorian calendar.  The
    conversions to [cftime.DatetimeGregorian] on the way in and to
    [date_cls] on the way out rebuild a date from these six fields, so they
    leave this number as it is. *)
Definition datetime : Type := Z.

(** An offset object of [xarray.coding.cftime_offsets]: its multiple [n],
    its test [onOffset], and [shift k date], the sum of [date] and the
    offset of the same class (and anchor) with multiple [k].  So
    [date + offset] is [shift n date], and the [date + type(self)()] and
    [date - type(self)()] of the roll methods are [shift 1 date] and
    [shift (-1) date]. *)
Record CFTimeOffset : Type := mkOffset {
  n : Z;
  onOffset : datetime -> bool;
  shift : Z -> datetime -> datetime
}.

Definition add (offset : CFTimeOffset) (date : datetime) : datetime :=
  shift offset (n offset) date.

Definition rollforward (offset : CFTimeOffset) (date : datetime) : datetime :=
  if onOffset offset date then date else shift offset 1 date.

Definition rollback (offset : CFTimeOffset) (date : datetime) : datetime :=
  if onOffset offset date then date else shift offset (-1) date.

(** The loop of [_generate_range] for [offset.n >= 0].  Each turn either
    raises or moves [current] forward, so [fuel] bounds the turns left. *)
Fixpoint range_up (offset : CFTimeOffset) (fuel : nat)
  (current end_ : datetime) : result (list datetime) :=
  if current <=? end_ then
    match fuel with
    | O => Unmodelled
    | S fuel' =>
      let next_date := add offset current in
      if next_date <=? current then Raise ValueError
      else
        rest <- range_up offset fuel' next_date end_ ;;
        Ok (current :: rest)
    end
  else Ok [].

(** The loop for [offset.n < 0]. *)
Fixpoint range_down (offset : CFTimeOffset) (fuel : nat)
  (current end_ : datetime) : result (list datetime) :=
  if current >=? end_ then
    match fuel with
    | O => Unmodelled
    | S fuel' =>
      let next_date := add offset current in
      if next_date >=? current then Raise ValueError
      else
        rest <- range_down offset fuel' next_date end_ ;;
        Ok (current :: rest)
    end
  else Ok [].

(** [list(_generate_range(start, end, None, offset))]. *)
Definition _generate_range (start end_ : datetime) (offset : CFTimeOffset)
  : result (list datetime) :=
  let start := rollforward offset start in
  let end_ := rollback offset end_ in
  let end_ :=
    if end_ <? start then shift offset (- n offset) start else end_ in
  if n offset >=? 0
  then range_up offset (Z.to_nat (end_ - start + 1)) start end_
  else range_down offset (Z.to_nat (start - end_ + 1)) start end_.

(** [cftime_range(start, end, freq=offset)]: both ends are kept. *)
Definition cftime_range (start end_ : datetime) (freq : CFTimeOffset)
  : result (list datetime) :=
  _generate_range start end_ freq.

Definition generate_range (start end_ : datetime) (offset : CFTimeOffset)
  : result (list datetime) :=
  let start_cf := start in
  let end_cf := end_ in
  cftime_range (rollback offset start_cf) (rollforward offset end_cf) offset.

(** The test of [BaseCFTimeOffset.onOffset], which the tick offsets (days,
    hours, minutes, seconds) inherit: [(self + date) - self == date]. *)
Definition base_onOffset (k : Z) (sh : Z -> datetime -> datetime)
  (date : datetime) : bool :=
  sh (- k) (sh k date) =? date.

(** A tick offset of [k] times [delta] seconds. *)
Definition Tick (delta k : Z) : CFTimeOffset :=
  let sh := fun j date => date + j * delta in
  mkOffset k (base_onOffset k sh) sh.

(** An offset anchored on the multiples of [period] seconds, the way the
    begin-of-period offsets are anchored on the first instants of their
    periods: a shift by [k] from a boundary moves [k] periods, a forward
    shift from inside a period first reaches the next boundary. *)
Definition Anchored (period k : Z) : CFTimeOffset :=
  mkOffset k
    (fun date => date mod period =? 0)
    (fun j date =>
       if date mod period =? 0 then date + j * period
       else if 0 <? j then (date / period) * period + j * period
       else (date / period) * period + (j + 1) * period).

(** An offset of multiple one whose unit shifts move strictly, land on the
    offset, and skip no date on the offset when moving forward, as an
    offset anchored on the first instants of its periods does. *)
Record unit_anchored (offset : CFTimeOffset) : Prop := {
  unit_multiple : n offset = 1;
  shift_forward : forall d, d < shift offset 1 d;
  shift_backward : forall d, shift offset (-1) d < d;
  on_forward : forall d, onOffset offset (shift offset 1 d) = true;
  on_backward : forall d, onOffset offset (shift offset (-1) d) = true;
  next_boundary : forall d b,
      onOffset offset b = true -> d < b -> shift offset 1 d <= b
}.

(** [y :: l] is a run of single steps from [x]. *)
Fixpoint chain (offset : CFTimeOffset) (x : datetime) (l : list datetime)
  : Prop :=
  match l with
  | [] => True
  | y :: l' => y = add offset x /\ x < y /\ chain offset y l'
  end.

(** What the range generator promises about its result. *)
Definition increasing (l : list datetime) : Prop :=
  forall i a b, nth_error l i = Some a -> nth_error l (S i) = Some b -> a < b.

Definition stepwise (offset : CFTimeOffset) (l : list datetime) : Prop :=
  forall i a b,
    nth_error l i = Some a -> nth_error l (S i) = Some b -> b = add offset a.

Record range_ok (start end_ : datetime) (offset : CFTimeOffset)
  (l : list datetime) : Prop := {
  range_increasing : increasing l;
  range_first : exists first, hd_error l = Some first /\
                  onOffset offset first = true /\ first <= start;
  range_last : exists last, hd_error (rev l) = Some last /\
                 onOffset offset last = true /\ end_ <= last;
  range_steps : stepwise offset l;
  range_first_fixed : onOffset offset start = true -> hd_error l = Some start;
  range_last_fixed : onOffset offset end_ = true ->
                     hd_error (rev l) = Some end_
}.

End Offsets.

(** ** scmdata.groupby *)

Module Groupby.

(** A cell of the metadata frame. *)
Inductive cell : Type :=
| Missing
| Num (q : Q)
| Text (s : pystr).

Inductive dtype : Type :=
| Numeric      (* [np.issubdtype(dtype, np.number)] holds *)
| Object.

Record column : Type := mkColumn {
  name : pystr;
  col_dtype : dtype;
  cells : list cell
}.

(** A [pandas.DataFrame], column by column.  After [reset_index(drop=True)]
    the rows are numbered from zero, as the positions in [cells] are. *)
Definition frame : Type := list column.

Definition reset_index (meta : frame) : frame := meta.

Definition is_numeric (d : dtype) : bool :=
  match d with
  | Numeric => true
  | Object => false
  end.

(** [cell == na_fill_value]: a string or a missing value equals no number. *)
Definition cell_eqb (c : cell) (v : Q) : bool :=
  match c with
  | Num q => Qeq_bool q v
  | Missing | Text _ => false
  end.

(** [(meta == na_fill_value).any(axis=None)]. *)
Definition any_equal (meta : frame) (v : Q) : bool :=
  existsb (fun c => existsb (fun x => cell_eqb x v) (cells c)) meta.

Definition fill_cell (v : Q) (c : cell) : cell :=
  match c with
  | Missing => Num v
  | _ => c
  end.

(** [m.fillna(na_fill_value)]. *)
Definition fillna (m : frame) (v : Q) : frame :=
  map (fun c => mkColumn (name c) (col_dtype c) (map (fill_cell v) (cells c)))
      m.

Definition default_na_fill_value : Q := inject_Z (-10000).

Section GroupBy.

(** [pandas.DataFrame.groupby(keys, group_keys=True)] and the grouper it
    returns belong to pandas. *)
Variable grouper : Type.
Variable groupby : frame -> list pystr -> result grouper.

Record GroupBy : Type := mkGroupBy {
  na_fill_value : Q;
  _grouper : grouper
}.

(** [GroupBy.__init__]. *)
Definition init (meta : frame) (groups : list pystr) (na_fill : Q)
  : result GroupBy :=
  let m := reset_index meta in
  m' <-
    (if existsb (fun c => is_numeric (col_dtype c)) m then
       if any_equal meta na_fill then Raise ValueError
       else Ok (fillna m na_fill)
     else Ok m) ;;
  g <- groupby m' groups ;;
  Ok (mkGroupBy na_fill g).

End GroupBy.

(** Two scenarios with a warming each, the second one missing. *)
Definition two_scenarios : frame :=
  [mkColumn (str "scenario") Object [Text (str "a"); Text (str "b")];
   mkColumn (str "warming") Numeric [Num (3 # 2); Missing]].

(** A grouper that records the frame and the keys it was built from. *)
Definition keep_keys (m : frame) (keys : list pystr)
  : result (frame * list pystr) :=
  Ok (m, keys).

End Groupby.

(** ** scmdata.groupby: the keys of the groups *)

Module GroupbyKeys.

Import Groupby.

Section TryFillValue.

(** [float(v)] of a string: [None] when it raises [ValueError] or gives a
    value that is not finite, which equals no sentinel. *)
Variable float_of_text : pystr -> option Q.

(** [_try_fill_value] of [GroupBy._iter_grouped]. *)
Definition _try_fill_value (na_fill : Q) (v : cell) : cell :=
  match v with
  | Missing => v
  | Num q => if Qeq_bool q na_fill then Missing else v
  | Text s =>
    match float_of_text s with
    | Some q => if Qeq_bool q na_fill then Missing else v
    | None => v
    end
  end.

(** The key of one group as [_iter_grouped] hands it to [filter]. *)
Definition restore_key (na_fill : Q) (indices : list cell) : list cell :=
  map (_try_fill_value na_fill) indices.

End TryFillValue.

(** A reading of strings as numbers that knows the decimal integers. *)
Definition float_of_digits (s : pystr) : option Q :=
  option_map inject_Z (Filters.int_of_digits s).

End GroupbyKeys.

(** ** scmdata.processing *)

Module Processing.

(** A value of a timeseries: a finite number, or not-a-number ([None]). *)
Definition pyfloat : Type := option Q.

(** [x > threshold]; false for not-a-number. *)
Definition gt (x : pyfloat) (threshold : Q) : bool :=
  match x with
  | Some q => negb (Qle_bool q threshold)
  | None => false
  end.

(** [x <= bound]; false for not-a-number. *)
Definition le (x : pyfloat) (bound : Q) : bool :=
  match x with
  | Some q => Qle_bool q bound
  | None => false
  end.

Section Timeseries.

(** The time points that label the columns, and the year of a time
    point. *)
Variable time : Type.
Variable year : time -> Z.

(** [scmrun.timeseries()]: the time columns and one row of values per
    timeseries, each as long as the columns. *)
Record frame : Type := mkFrame {
  columns : list time;
  rows : list (list pyfloat)
}.

(** [_get_ts_gt_threshold]. *)
Definition _get_ts_gt_threshold (ts : frame) (threshold : Q)
  : list (list bool) :=
  map (map (fun x => gt x threshold)) (rows ts).

(** The position [idxmax] picks in a row of booleans: the first [True], or
    the first position when there is none. *)
Fixpoint first_true (row : list bool) : nat :=
  match row with
  | [] => O
  | true :: _ => O
  | false :: row' =>
    if existsb (fun b => b) row' then S (first_true row') else O
  end.

(** The crossing time of one row. *)
Definition crossing_time (cols : list time) (row : list bool)
  (return_year : bool) : option (time + Z) :=
  match nth_error cols (first_true row) with
  | None => None
  | Some t =>
    if existsb (fun b => b) row
    then Some (if return_year then inr (year t) else inl t)
    else None                       (* not crossed: set to nan *)
  end.

(** [calculate_crossing_times]; [idxmax] raises [ValueError] on a frame
    with rows and no column. *)
Definition calculate_crossing_times (ts : frame) (threshold : Q)
  (return_year : bool) : result (list (option (time + Z))) :=
  let timeseries_gt_threshold := _get_ts_gt_threshold ts threshold in
  match columns ts, rows ts with
  | [], _ :: _ => Raise ValueError
  | _, _ =>
    Ok (map (fun row => crossing_time (columns ts) row return_year)
            timeseries_gt_threshold)
  end.

End Timeseries.

Arguments mkFrame {time} columns rows.
Arguments columns {time} f.
Arguments rows {time} f.

(** [_get_exceedance_fraction] on one group: the members that exceed over
    the members of the group. *)
Definition _get_exceedance_fraction (exceeding : list bool) : Q :=
  let number_exceeding := Z.of_nat (List.length (filter (fun b => b) exceeding)) in
  let number_members := Z.of_nat (List.length exceeding) in
  inject_Z number_exceeding / inject_Z number_members.

(** [calculate_exceedance_probabilities] on the rows of one group: a member
    exceeds when it is above the threshold at any time. *)
Definition exceedance_probability (group : list (list pyfloat))
  (threshold : Q) : Q :=
  _get_exceedance_fraction
    (map (existsb (fun x => gt x threshold)) group).

(** [calculate_exceedance_probabilities_over_time] on the rows of one
    group, at the column [k]. *)
Definition exceedance_probability_at (group : list (list pyfloat))
  (threshold : Q) (k : nat) : Q :=
  _get_exceedance_fraction
    (map (fun row => gt (nth k row None) threshold) group).

Definition is_some {A : Type} (o : option A) : bool :=
  match o with
  | Some _ => true
  | None => false
  end.

(** The categories of [categorisation_sr15]. *)
Inductive category : Type :=
| Above_2C
| Below_1_5C
| Low_overshoot_1_5C
| High_overshoot_1_5C
| Higher_2C
| Lower_2C.

Definition category_name (c : category) : pystr :=
  match c with
  | Above_2C => str "Above 2C"
  | Below_1_5C => str "Below 1.5C"
  | Low_overshoot_1_5C => str "1.5C low overshoot"
  | High_overshoot_1_5C => str "1.5C high overshoot"
  | Higher_2C => str "Higher 2C"
  | Lower_2C => str "Lower 2C"
  end.

(** [categories[mask] = value] on one row. *)
Definition assign (mask : bool) (value : category) (current : option category)
  : option category :=
  if mask then Some value else current.

(** The assignments of [categorisation_sr15] on one row, from the peak of
    the median, of the 33rd and of the 66th percentile and the median at
    the end of the century; [None] is a row left without category, for
    which the function raises [AssertionError]. *)
Definition categorise (peak_median peak_p33 peak_p66
  end_of_century_median : pyfloat) : option category :=
  let categories := None in
  let categories := assign (gt peak_median 2) Above_2C categories in
  let categories := assign (le peak_median (3 # 2)) Below_1_5C categories in
  let overshoot_15 :=
    gt peak_median (3 # 2) && le end_of_century_median (3 # 2) in
  let categories :=
    assign (overshoot_15 && le peak_p33 (3 # 2)) Low_overshoot_1_5C
      categories in
  let categories :=
    assign (overshoot_15 && gt peak_p33 (3 # 2)) High_overshoot_1_5C
      categories in
  let still_uncategorised := Filters.is_none categories in
  let peak_p66_lte_2 := le peak_p66 2 in
  let categories :=
    assign (still_uncategorised && le peak_median 2 && negb peak_p66_lte_2)
      Higher_2C categories in
  let categories :=
    assign (still_uncategorised && peak_p66_lte_2) Lower_2C categories in
  categories.

End Processing.

(** ** Range strings in the argument of the time matchers *)

Module TimeRanges.

Import Filters.

(** A string with a "-", which [time_match] reads as a range. *)
Definition is_range (v : pyval) : bool :=
  match v with
  | PStr t => char_in "-"%char t
  | _ => false
  end.

(** The positions of the range strings of [l], counted from [i]. *)
Fixpoint range_positions (i : nat) (l : list pyval) : list nat :=
  match l with
  | [] => []
  | v :: l' =>
    if is_range v then i :: range_positions (S i) l'
    else range_positions (S i) l'
  end.

(** A conversion code that converts no string with a "-". *)
Definition rejects_ranges (conv : converter) : Prop :=
  forall t, char_in "-"%char t = true -> conv t = None.

End TimeRanges.

(** * Properties *)

Import Re Filters.

(** ** The pattern matcher *)

(** *** The glob step *)

Section GlobFacts.

Lemma flat_map_flat_map (A B C : Type) (f : A -> list B) (g : B -> list C)
  (l : list A) :
  flat_map g (flat_map f l) = flat_map (fun a => flat_map g (f a)) l.
Proof.
  induction l as [|a l IH]; simpl; [reflexivity|].
  now rewrite flat_map_app, IH.
Qed.

(** Replacing a one-character [old] works character by character. *)
Lemma replace_char (c : ascii) (new s : pystr) :
  replace [c] new s
  = flat_map (fun x => if Ascii.eqb c x then new else [x]) s.
Proof.
  unfold replace.
  induction s as [|x s IH]; [reflexivity|].
  cbn [replace_from startswith List.length Nat.pred flat_map].
  destruct (Ascii.eqb c x); cbn [andb]; rewrite IH; reflexivity.
Qed.

Lemma escape_chain (c : ascii) :
  flat_map (fun x => if Ascii.eqb "^" x then str "\^" else [x])
  (flat_map (fun x => if Ascii.eqb "$" x then str "\$" else [x])
  (flat_map (fun x => if Ascii.eqb ")" x then str "\)" else [x])
  (flat_map (fun x => if Ascii.eqb "(" x then str "\(" else [x])
  (flat_map (fun x => if Ascii.eqb "+" x then str "\+" else [x])
  (flat_map (fun x => if Ascii.eqb "*" x then str ".*" else [x])
  (flat_map (fun x => if Ascii.eqb "." x then str "\." else [x])
  (if Ascii.eqb "|" c then str "\|" else [c])))))))
  = escape_char c.
Proof.
  destruct c as [[] [] [] [] [] [] [] []]; reflexivity.
Qed.

Lemma pseudo_regexp_chars (s : pystr) :
  pseudo_regexp s = flat_map escape_char s ++ str "$".
Proof.
  unfold pseudo_regexp. f_equal.
  change (str "^") with ["^"%char]. change (str "$") with ["$"%char].
  change (str ")") with [")"%char]. change (str "(") with ["("%char].
  change (str "+") with ["+"%char]. change (str "*") with ["*"%char].
  change (str ".") with ["."%char]. change (str "|") with ["|"%char].
  rewrite !replace_char.
  induction s as [|c s IH]; [reflexivity|].
  cbn [flat_map]. rewrite !flat_map_app, IH. f_equal. apply escape_chain.
Qed.

Lemma escape_char_head (c : ascii) (r : pystr) :
  no_star_ahead (escape_char c ++ r).
Proof.
  destruct c as [[] [] [] [] [] [] [] []]; reflexivity.
Qed.

Lemma escaped_tail_head (s : pystr) :
  no_star_ahead (flat_map escape_char s ++ str "$").
Proof.
  destruct s as [|c s]; [reflexivity|].
  cbn [flat_map]. rewrite <- app_assoc. apply escape_char_head.
Qed.

Ltac each_char c :=
  destruct c as [[] [] [] [] [] [] [] []].

Lemma compile_plain (c : ascii) (r : pystr) :
  Ascii.eqb c "\" = false -> Ascii.eqb c "$" = false ->
  Ascii.eqb c "*" = false -> unsupported c = false -> no_star_ahead r ->
  compile (c :: r)
  = option_map (cons (One (if Ascii.eqb c "." then Dot else Lit c)))
      (compile r).
Proof.
  intros H1 H2 H3 H4 Hr.
  cbn [compile]. rewrite H1, H2, H3, H4.
  destruct r as [|x r]; [reflexivity|].
  simpl in Hr. each_char x; try discriminate Hr; reflexivity.
Qed.

Lemma compile_backslash (e : ascii) (r : pystr) :
  is_alnum e = false -> no_star_ahead r ->
  compile ("\"%char :: e :: r) = option_map (cons (One (Lit e))) (compile r).
Proof.
  intros He Hr.
  cbn [compile]. change (Ascii.eqb "\" "\") with true. cbv iota.
  rewrite He.
  destruct r as [|x r]; [reflexivity|].
  simpl in Hr. each_char x; try discriminate Hr; reflexivity.
Qed.

Lemma escaped_char_facts (c : ascii) :
  escaped c = true -> is_alnum c = false /\ Ascii.eqb c "*" = false.
Proof.
  each_char c; intros H; try discriminate H; split; reflexivity.
Qed.

Lemma plain_char_facts (c : ascii) :
  escaped c = false -> Ascii.eqb c "*" = false -> glob_char c = true ->
  Ascii.eqb c "\" = false /\ Ascii.eqb c "$" = false
  /\ unsupported c = false /\ Ascii.eqb c "." = false.
Proof.
  each_char c; intros H1 H2 H3;
    try discriminate H1; try discriminate H2; try discriminate H3;
    repeat split; reflexivity.
Qed.

Lemma compile_escape_char (c : ascii) (r : pystr) :
  glob_char c = true -> no_star_ahead r ->
  compile (escape_char c ++ r) = option_map (cons (glob_item c)) (compile r).
Proof.
  intros Hc Hr. unfold escape_char, glob_item.
  destruct (escaped c) eqn:He.
  - destruct (escaped_char_facts c He) as [Ha Hs]. rewrite Hs.
    now apply compile_backslash.
  - destruct (Ascii.eqb c "*") eqn:Hs.
    + reflexivity.
    + destruct (plain_char_facts c He Hs Hc) as (H1 & H2 & H3 & H4).
      cbn [app]. rewrite compile_plain by assumption. now rewrite H4.
Qed.

Lemma compile_pseudo_regexp (s : pystr) :
  forallb glob_char s = true ->
  compile (pseudo_regexp s) = Some (map glob_item s ++ [Eol]).
Proof.
  intros Hs. rewrite pseudo_regexp_chars.
  induction s as [|c s IH]; [reflexivity|].
  cbn [forallb] in Hs. apply andb_prop in Hs as [Hc Hs].
  cbn [flat_map map]. rewrite <- app_assoc.
  rewrite compile_escape_char by (assumption || apply escaped_tail_head).
  now rewrite IH.
Qed.

(** On a label without a line feed the compiled pattern is the glob. *)
Lemma at_eol_no_newline (m : pystr) :
  no_newline m = true ->
  at_eol m = match m with [] => true | _ :: _ => false end.
Proof.
  destruct m as [|x [|y m]]; try reflexivity.
  unfold no_newline, char_in; cbn [existsb at_eol]. rewrite orb_false_r.
  rewrite Ascii.eqb_sym. now intros ->%negb_true_iff.
Qed.

Lemma no_newline_cons (x : ascii) (m : pystr) :
  no_newline (x :: m) = true ->
  Ascii.eqb x newline = false /\ no_newline m = true.
Proof.
  unfold no_newline, char_in; cbn [existsb].
  rewrite negb_orb, andb_true_iff, !negb_true_iff.
  rewrite (Ascii.eqb_sym newline x). tauto.
Qed.

Lemma matches_star (a : atom) (r : regex) (m : pystr) :
  matches (Star a :: r) m
  = matches r m
    || match m with
       | [] => false
       | c :: m' => atom_ok a c && matches (Star a :: r) m'
       end.
Proof.
  destruct m; reflexivity.
Qed.

Lemma glob_match_star (s m : pystr) :
  glob_match ("*"%char :: s) m
  = glob_match s m
    || match m with
       | [] => false
       | _ :: m' => glob_match ("*"%char :: s) m'
       end.
Proof.
  destruct m; reflexivity.
Qed.

Lemma matches_glob (s m : pystr) :
  no_newline m = true ->
  matches (map glob_item s ++ [Eol]) m = glob_match s m.
Proof.
  revert m. induction s as [|c s IH]; intros m Hm.
  - cbn. rewrite andb_true_r. now apply at_eol_no_newline.
  - destruct (Ascii.eqb c "*") eqn:Hc.
    + apply Ascii.eqb_eq in Hc as ->.
      change (map glob_item ("*"%char :: s) ++ [Eol])
        with (Star Dot :: (map glob_item s ++ [Eol])).
      induction m as [|x m IHm].
      * rewrite matches_star, glob_match_star. now rewrite IH.
      * destruct (no_newline_cons x m Hm) as [Hx Hm'].
        rewrite matches_star, glob_match_star.
        rewrite IH, IHm by assumption.
        cbn [atom_ok]. now rewrite Hx.
    + cbn [map app glob_match]. unfold glob_item at 1. rewrite Hc.
      destruct m as [|x m]; [reflexivity|].
      destruct (no_newline_cons x m Hm) as [Hx Hm'].
      cbn [matches atom_ok]. now rewrite IH.
Qed.

(** Without "*" the pattern selects the value itself, with or without a
    line feed after it. *)
Lemma matches_literal (s m : pystr) :
  char_in "*" s = false ->
  matches (map glob_item s ++ [Eol]) m = true <-> m = s \/ m = s ++ [newline].
Proof.
  unfold char_in.
  revert m. induction s as [|c s IH]; intros m Hs.
  - cbn [map app matches]. rewrite andb_true_r. split.
    + destruct m as [|x [|y m]]; cbn [at_eol]; try discriminate; auto.
      intros ->%Ascii.eqb_eq. now right.
    + intros [->| ->]; reflexivity.
  - cbn [existsb] in Hs. apply orb_false_elim in Hs as [Hc Hs].
    rewrite Ascii.eqb_sym in Hc.
    cbn [map app]. unfold glob_item at 1. rewrite Hc.
    destruct m as [|x m]; cbn [matches atom_ok].
    + split; [discriminate|]. intros [H|H]; discriminate H.
    + rewrite andb_true_iff, Ascii.eqb_eq, IH by assumption.
      split.
      * intros [-> [->| ->]]; auto.
      * intros [H|H]; injection H as -> ->; auto.
Qed.

End GlobFacts.

Section PatternMatchFacts.

Context {F : Type} {ops : Builtins F}.

Lemma mask_or_false_l (A : Type) (f : A -> bool) (l : list A) :
  mask_or (map (fun _ => false) l) (map f l) = map f l.
Proof.
  induction l as [|a l IH]; simpl; [reflexivity | now rewrite IH].
Qed.

(** C7: the bare value "*" with no level and without [regexp] selects every
    row of every column, the rows without a category included. *)
Theorem pattern_match_bare_star (meta_col : CategoricalIndex F)
  (separator : pystr) :
  pattern_match meta_col (Single (VStr (str "*"))) None false separator
  = Ok (map (fun _ => true) (codes meta_col)).
Proof.
  unfold pattern_match; simpl.
  now rewrite map_map.
Qed.


Lemma isin_abc (sd : bool) (rows : nat) (subset : list (label F)) :
  isin (abc_column sd rows) subset
  = repeat (existsb (label_eqb (LStr (str "a|b|c"))) subset) rows.
Proof.
  unfold isin; simpl codes.
  now rewrite map_repeat.
Qed.

Lemma mask_or_false_repeat (b : bool) (rows : nat) :
  mask_or (map (fun _ => false) (repeat 0 rows)) (repeat b rows)
  = repeat b rows.
Proof.
  induction rows as [|k IH]; simpl; [reflexivity | now rewrite IH].
Qed.

(** The loop of [pattern_match] on one string value with a level. *)
Lemma pattern_match_single_level (meta_col : CategoricalIndex F)
  (c : ascii) (s : pystr) (lv : level_arg) (separator : pystr) :
  pattern_match meta_col (Single (VStr (c :: s))) (Some lv) false separator
  = match compile (pseudo_regexp (c :: s)) with
    | None => Unmodelled
    | Some pattern =>
      depth <- find_depth meta_col (c :: s) lv separator ;;
      Ok (isin meta_col
            (filter (fun m => existsb (label_eqb m) depth)
                    (glob_subset (categories meta_col) pattern)))
    end.
Proof.
  unfold pattern_match, match_values, match_value.
  cbn [use_string_comparison py_str_value].
  cbn [is_none]. rewrite andb_false_r.
  destruct (compile (pseudo_regexp (c :: s))) as [pattern|]; [|reflexivity].
  destruct (find_depth meta_col (c :: s) lv separator) as [depth|e|];
    cbn [bind]; [|reflexivity|reflexivity].
  unfold isin. now rewrite mask_or_false_l.
Qed.

(** C2, as the code has it: the depth of a label is counted after every
    occurrence of the value (its "*" removed) is taken out of the label, so
    the label "a|b|c" has depth 0 for the value "a|b|c": [level=0] selects
    every row of the column and [level=1] selects none. *)
Theorem pattern_match_depth_of_exact_label (sd : bool) (rows : nat) :
  pattern_match (abc_column sd rows) (Single (VStr (str "a|b|c")))
    (Some (LvInt 0)) false HIERARCHY_SEPARATOR
  = Ok (repeat true rows)
  /\ pattern_match (abc_column sd rows) (Single (VStr (str "a|b|c")))
      (Some (LvInt 1)) false HIERARCHY_SEPARATOR
    = Ok (repeat false rows).
Proof.
  assert (Hc : compile (pseudo_regexp (str "a|b|c"))
               = Some (map (fun c => One (Lit c)) (str "a|b|c") ++ [Eol]))
    by (vm_compute; reflexivity).
  split.
  - change (str "a|b|c") with ("a"%char :: str "|b|c") at 1.
    rewrite pattern_match_single_level.
    change ("a"%char :: str "|b|c") with (str "a|b|c").
    rewrite Hc.
    replace (find_depth (abc_column sd rows) (str "a|b|c") (LvInt 0)
               HIERARCHY_SEPARATOR)
      with (Ok [LStr (F := F) (str "a|b|c")]) by reflexivity.
    cbn [bind]. rewrite isin_abc.
    f_equal.
  - change (str "a|b|c") with ("a"%char :: str "|b|c") at 1.
    rewrite pattern_match_single_level.
    change ("a"%char :: str "|b|c") with (str "a|b|c").
    rewrite Hc.
    replace (find_depth (abc_column sd rows) (str "a|b|c") (LvInt 1)
               HIERARCHY_SEPARATOR)
      with (Ok (@nil (label F))) by reflexivity.
    cbn [bind]. rewrite isin_abc.
    f_equal.
Qed.

(** The loop of [pattern_match] on one string value without a level. *)
Lemma pattern_match_single_glob (meta_col : CategoricalIndex F)
  (s : pystr) (separator : pystr) :
  s <> [] -> s <> str "*" ->
  pattern_match meta_col (Single (VStr s)) None false separator
  = match compile (pseudo_regexp s) with
    | None => Unmodelled
    | Some pattern =>
      Ok (isin meta_col (glob_subset (categories meta_col) pattern))
    end.
Proof.
  intros Hne Hstar.
  unfold pattern_match, match_values, match_value.
  destruct s as [|c s]; [contradiction|].
  cbn [use_string_comparison py_str_value value_is].
  replace (PyStr.eqb (c :: s) (str "*")) with false
    by (unfold PyStr.eqb; now destruct (list_eq_dec ascii_dec _ _)).
  cbn [negb andb].
  destruct (compile (pseudo_regexp (c :: s))) as [pattern|]; [|reflexivity].
  cbn [bind]. unfold isin. now rewrite mask_or_false_l.
Qed.



End PatternMatchFacts.

(** C2, as stated, fails on the one-row column: [level=1] gives a False
    mask and [level=0] a True mask. *)
Lemma pattern_match_level_one_no_match :
  pattern_match (mkIndex [LStr (str "a|b|c")] true [0])
    (Single (VStr (F := Empty_set) (str "a|b|c")))
    (Some (LvInt 1)) false HIERARCHY_SEPARATOR
  <> Ok [true]
  /\ pattern_match (mkIndex [LStr (str "a|b|c")] true [0])
      (Single (VStr (F := Empty_set) (str "a|b|c")))
      (Some (LvInt 0)) false HIERARCHY_SEPARATOR
    <> Ok [false].
Proof.
  split; vm_compute; discriminate.
Qed.





(** ** The time-component matchers *)

Lemma is_in_list (data l : list pyval) :
  is_in data (PList l) = Ok (map (fun v => existsb (py_eq v) l) data).
Proof.
  unfold is_in.
  induction data as [|v data IH]; [reflexivity|].
  cbn [traverse]. rewrite IH. reflexivity.
Qed.

(** C5: the range "Mar-May" selects what the list [3, 4, 5] selects, and
    the decreasing range "Nov-Feb" raises [ValueError]. *)
Theorem month_match_range_expansion (data : list pyval) :
  month_match data (PStr (str "Mar-May"))
  = month_match data (PList [PInt 3; PInt 4; PInt 5])
  /\ month_match data (PList [PInt 3; PInt 4; PInt 5])
     = Ok (map (fun v => existsb (py_eq v) [PInt 3; PInt 4; PInt 5]) data)
  /\ month_match data (PStr (str "Nov-Feb")) = Raise ValueError.
Proof.
  split; [|split].
  - reflexivity.
  - change (month_match data (PList [PInt 3; PInt 4; PInt 5]))
      with (is_in data (PList [PInt 3; PInt 4; PInt 5])).
    apply is_in_list.
  - reflexivity.
Qed.

(** C4, on the code: with the two ranges the loop collects the indices 0
    and 1; deleting index 0 leaves one element, and deleting index 1 then
    raises [IndexError], whatever the data.  The list [11, 12, 1, 2] gives
    its membership mask. *)
Theorem month_match_two_ranges_raises (data : list pyval) :
  month_match data (PList [PStr (str "Nov-Dec"); PStr (str "Jan-Feb")])
  = Raise IndexError
  /\ month_match data (PList [PInt 11; PInt 12; PInt 1; PInt 2])
     = Ok (map (fun v => existsb (py_eq v)
                           [PInt 11; PInt 12; PInt 1; PInt 2]) data).
Proof.
  split.
  - reflexivity.
  - change (month_match data (PList [PInt 11; PInt 12; PInt 1; PInt 2]))
      with (is_in data (PList [PInt 11; PInt 12; PInt 1; PInt 2])).
    apply is_in_list.
Qed.

(** C6, as the code has it: [years_match] raises [TypeError] before any
    membership test for a float, for a non-empty string and for a list
    with an element that is not an integer; [hour_match] tests nothing:
    given a list it returns the membership mask whatever the list holds. *)
Theorem years_match_checks_hour_match_does_not
  (data : list pyval) (q : Q) (c : ascii) (s : pystr) (l : list pyval)
  (Hl : forallb is_int l = false) :
  years_match data (PFloat q) = Raise TypeError
  /\ years_match data (PStr (c :: s)) = Raise TypeError
  /\ years_match data (PList l) = Raise TypeError
  /\ hour_match data (PList l)
     = Ok (map (fun v => existsb (py_eq v) l) data).
Proof.
  repeat split; try reflexivity.
  - unfold years_match; simpl. now rewrite Hl.
  - unfold hour_match; simpl. apply is_in_list.
Qed.

Lemma years_match_checks_hour_match_does_not_witness :
  forallb is_int [PInt 7; PStr (str "8")] = false
  /\ years_match [PInt 7] (PList [PInt 7; PStr (str "8")]) = Raise TypeError
  /\ hour_match [PInt 7] (PList [PInt 7; PStr (str "8")]) = Ok [true].
Proof.
  split; [reflexivity|].
  pose proof (years_match_checks_hour_match_does_not
                [PInt 7] 0 "a"%char [] [PInt 7; PStr (str "8")] eq_refl)
    as (_ & _ & Hy & Hh).
  split; [exact Hy | exact Hh].
Defined.

(** C6, as stated, fails for [hour_match]: a list that holds a float and a
    string raises nothing. *)
Lemma hour_match_accepts_float_and_string :
  hour_match [PInt 1; PInt 2] (PList [PFloat (1 # 1); PStr (str "x")])
  = Ok [true; false].
Proof.
  reflexivity.
Qed.

(** ** The range generator *)

Import Offsets.

(** The fuel given by [_generate_range] is never used up. *)
Lemma range_up_fuel (offset : CFTimeOffset) (fuel : nat)
  (current end_ : datetime) :
  (Z.to_nat (end_ - current + 1) <= fuel)%nat ->
  range_up offset fuel current end_ <> Unmodelled.
Proof.
  revert current. induction fuel as [|fuel IH]; intros current Hfuel.
  - cbn [range_up]. destruct (current <=? end_) eqn:E; [|discriminate].
    apply Z.leb_le in E. lia.
  - cbn [range_up]. destruct (current <=? end_) eqn:E; [|discriminate].
    apply Z.leb_le in E.
    destruct (add offset current <=? current) eqn:E'; [discriminate|].
    apply Z.leb_gt in E'.
    specialize (IH (add offset current) ltac:(lia)).
    destruct (range_up offset fuel (add offset current) end_);
      [discriminate | discriminate | contradiction].
Qed.

Lemma range_down_fuel (offset : CFTimeOffset) (fuel : nat)
  (current end_ : datetime) :
  (Z.to_nat (current - end_ + 1) <= fuel)%nat ->
  range_down offset fuel current end_ <> Unmodelled.
Proof.
  revert current. induction fuel as [|fuel IH]; intros current Hfuel.
  - cbn [range_down]. destruct (current >=? end_) eqn:E; [|discriminate].
    apply Z.geb_le in E. lia.
  - cbn [range_down]. destruct (current >=? end_) eqn:E; [|discriminate].
    apply Z.geb_le in E.
    destruct (add offset current >=? current) eqn:E'; [discriminate|].
    rewrite Z.geb_leb in E'. apply Z.leb_gt in E'.
    specialize (IH (add offset current) ltac:(lia)).
    destruct (range_down offset fuel (add offset current) end_);
      [discriminate | discriminate | contradiction].
Qed.

Lemma generate_range_total (start end_ : datetime) (offset : CFTimeOffset) :
  generate_range start end_ offset <> Unmodelled.
Proof.
  unfold generate_range, cftime_range, _generate_range.
  destruct (n offset >=? 0).
  - apply range_up_fuel. lia.
  - apply range_down_fuel. lia.
Qed.

Section RangeFacts.

Variable offset : CFTimeOffset.

Lemma chain_increasing (x : datetime) (l : list datetime) :
  chain offset x l -> increasing (x :: l).
Proof.
  revert x. induction l as [|y l IH]; intros x Hc i a b Ha Hb.
  - destruct i; discriminate Hb.
  - destruct Hc as (_ & Hlt & Hc).
    destruct i as [|i]; cbn in Ha, Hb.
    + now injection Ha as <-; injection Hb as <-.
    + exact (IH y Hc i a b Ha Hb).
Qed.

Lemma chain_stepwise (x : datetime) (l : list datetime) :
  chain offset x l -> stepwise offset (x :: l).
Proof.
  revert x. induction l as [|y l IH]; intros x Hc i a b Ha Hb.
  - destruct i; discriminate Hb.
  - destruct Hc as (Hy & _ & Hc).
    destruct i as [|i]; cbn in Ha, Hb.
    + now injection Ha as <-; injection Hb as <-.
    + exact (IH y Hc i a b Ha Hb).
Qed.

Lemma last_default (z : datetime) (l : list datetime) (x y : datetime) :
  last (z :: l) x = last (z :: l) y.
Proof.
  revert z. induction l as [|w l IH]; intros z; [reflexivity|].
  change (last (w :: l) x = last (w :: l) y). apply IH.
Qed.

Lemma hd_rev_last (x : datetime) (l : list datetime) :
  hd_error (rev (x :: l)) = Some (last l x).
Proof.
  revert x. induction l as [|y l IH]; intros x; [reflexivity|].
  specialize (IH y).
  change (rev (x :: y :: l)) with (rev (y :: l) ++ [x]).
  destruct (rev (y :: l)) as [|z r]; [discriminate IH|].
  cbn [app hd_error] in *. rewrite IH.
  destruct l as [|w l]; [reflexivity|].
  f_equal. change (last (w :: l) y = last (w :: l) x). apply last_default.
Qed.

Hypothesis anchored : unit_anchored offset.

Lemma add_is_unit_shift (d : datetime) : add offset d = shift offset 1 d.
Proof.
  unfold add. now rewrite (unit_multiple _ anchored).
Qed.

Lemma rollback_on (d : datetime) : onOffset offset (rollback offset d) = true.
Proof.
  unfold rollback. destruct (onOffset offset d) eqn:E; [exact E|].
  apply (on_backward _ anchored).
Qed.

Lemma rollforward_on (d : datetime) :
  onOffset offset (rollforward offset d) = true.
Proof.
  unfold rollforward. destruct (onOffset offset d) eqn:E; [exact E|].
  apply (on_forward _ anchored).
Qed.

Lemma rollback_le (d : datetime) : rollback offset d <= d.
Proof.
  unfold rollback. destruct (onOffset offset d); [lia|].
  pose proof (shift_backward _ anchored d). lia.
Qed.

Lemma rollforward_ge (d : datetime) : d <= rollforward offset d.
Proof.
  unfold rollforward. destruct (onOffset offset d); [lia|].
  pose proof (shift_forward _ anchored d). lia.
Qed.

Lemma roll_fixed (d : datetime) :
  onOffset offset d = true ->
  rollback offset d = d /\ rollforward offset d = d.
Proof.
  intros H. unfold rollback, rollforward. now rewrite H.
Qed.

(** With enough fuel the loop runs from one date on the offset to a later
    one and stops exactly there. *)
Lemma range_up_reaches (fuel : nat) (current end_ : datetime) :
  onOffset offset end_ = true ->
  current <= end_ ->
  (Z.to_nat (end_ - current + 1) <= fuel)%nat ->
  exists l, range_up offset fuel current end_ = Ok (current :: l)
            /\ chain offset current l
            /\ last l current = end_.
Proof.
  intros Hend. revert current.
  induction fuel as [|fuel IH]; intros current Hle Hfuel; [lia|].
  cbn [range_up].
  replace (current <=? end_) with true by (symmetry; now apply Z.leb_le).
  rewrite add_is_unit_shift.
  pose proof (shift_forward _ anchored current) as Hlt.
  replace (shift offset 1 current <=? current) with false
    by (symmetry; apply Z.leb_gt; lia).
  destruct (Z.eq_dec current end_) as [->|Hne].
  - exists []. repeat split.
    destruct fuel; cbn [range_up];
      replace (shift offset 1 end_ <=? end_) with false
        by (symmetry; apply Z.leb_gt; lia); reflexivity.
  - assert (Hnext : shift offset 1 current <= end_)
      by (apply (next_boundary _ anchored); [assumption | lia]).
    destruct (IH (shift offset 1 current) Hnext) as (l & Hl & Hc & Hlast);
      [lia|].
    exists (shift offset 1 current :: l). rewrite Hl. cbn [bind].
    split; [reflexivity|]. split.
    + cbn [chain]. rewrite add_is_unit_shift. auto.
    + rewrite <- Hlast. destruct l as [|w l]; [reflexivity|].
      change (last (w :: l) current = last (w :: l) (shift offset 1 current)).
      apply last_default.
Qed.


End RangeFacts.

Lemma Anchored_unit (period : Z) :
  0 < period -> unit_anchored (Anchored period 1).
Proof.
  intros Hp.
  constructor; cbn [n shift onOffset Anchored]; [reflexivity|..]; intros d.
  - pose proof (Z.mod_pos_bound d period Hp).
    pose proof (Z.div_mod d period).
    destruct (d mod period =? 0) eqn:E; cbn [Z.ltb]; [lia|].
    change (0 <? 1) with true. cbv iota. nia.
  - pose proof (Z.mod_pos_bound d period Hp).
    pose proof (Z.div_mod d period).
    destruct (d mod period =? 0) eqn:E; [lia|].
    apply Z.eqb_neq in E.
    change (0 <? -1) with false. cbv iota. nia.
  - destruct (d mod period =? 0) eqn:E.
    + apply Z.eqb_eq in E. apply Z.eqb_eq.
      replace (d + 1 * period) with (d + 1 * period) by lia.
      rewrite Z.mod_add by lia. exact E.
    + change (0 <? 1) with true. cbv iota. apply Z.eqb_eq.
      rewrite <- Z.mul_add_distr_r. apply Z.mod_mul. lia.
  - destruct (d mod period =? 0) eqn:E.
    + apply Z.eqb_eq in E. apply Z.eqb_eq.
      rewrite Z.mod_add by lia. exact E.
    + change (0 <? -1) with false. cbv iota. apply Z.eqb_eq.
      rewrite <- Z.mul_add_distr_r. apply Z.mod_mul. lia.
  - intros b Hb Hlt. apply Z.eqb_eq in Hb.
    pose proof (Z.mod_pos_bound d period Hp).
    pose proof (Z.div_mod d period).
    pose proof (Z.div_mod b period).
    assert (Hq : d / period < b / period) by nia.
    assert (Hq' : (d / period + 1) * period <= (b / period) * period) by nia.
    destruct (d mod period =? 0) eqn:E.
    + apply Z.eqb_eq in E. lia.
    + change (0 <? 1) with true. cbv iota. lia.
Qed.



(** A multiple of two can stop one period short of the rolled end, and
    bounds in the wrong order can give an empty range. *)
Lemma generate_range_short_or_empty :
  generate_range 15 37 (Anchored 10 2) = Ok [10; 30]
  /\ generate_range 47 15 (Anchored 10 1) = Ok [].
Proof.
  split; reflexivity.
Qed.

(** ** The group-by constructor *)

Section GroupByFacts.

Import Groupby.

Variable grouper : Type.
Variable groupby : frame -> list pystr -> result grouper.

Lemma fillna_no_missing (m : frame) (v : Q) :
  Forall (fun c => Forall (fun x => x <> Missing) (cells c)) (fillna m v).
Proof.
  unfold fillna. apply Forall_map, Forall_forall. intros c _; simpl.
  apply Forall_map, Forall_forall. intros x _.
  destruct x; simpl; discriminate.
Qed.


End GroupByFacts.


(** * Further properties *)

(** ** The pattern matcher, continued *)

Import TimeRanges.

Section MaskFacts.

Context {F : Type} {ops : Builtins F}.

Lemma mask_or_length (a b : list bool) :
  List.length (mask_or a b) = List.length a.
Proof.
  revert b. induction a as [|x a IH]; intros [|y b]; simpl; auto.
Qed.

Lemma mask_or_assoc (a b c : list bool) :
  List.length b = List.length a ->
  mask_or (mask_or a b) c = mask_or a (mask_or b c).
Proof.
  revert b c. induction a as [|x a IH]; intros [|y b] c Hl;
    try discriminate Hl; [reflexivity|].
  destruct c as [|z c]; [reflexivity|].
  simpl. rewrite orb_assoc, IH; [reflexivity|]. simpl in Hl. lia.
Qed.

Lemma mask_or_all_true (a : list bool) (l : list Z) :
  List.length a = List.length l ->
  mask_or a (map (fun _ => true) (map (fun _ => false) l))
  = map (fun _ => true) a.
Proof.
  revert l. induction a as [|x a IH]; intros [|z l] Hl;
    try discriminate Hl; [reflexivity|].
  simpl. rewrite orb_true_r, IH; [reflexivity|]. simpl in Hl. lia.
Qed.

Lemma mask_or_falses (l : list Z) (d : list bool) :
  List.length d = List.length l ->
  mask_or (map (fun _ => false) l) d = d.
Proof.
  revert d. induction l as [|z l IH]; intros [|y d] Hl;
    try discriminate Hl; [reflexivity|].
  simpl. rewrite IH; [reflexivity|]. simpl in Hl. lia.
Qed.

(** One turn of the loop ors the mask with what the value selects. *)
Lemma match_value_or (meta_col : CategoricalIndex F)
  (level : option level_arg) (regexp : bool) (separator : pystr)
  (mtch : list bool) (s : value F) :
  List.length mtch = List.length (codes meta_col) ->
  match_value meta_col level regexp separator mtch s
  = (d <- match_value meta_col level regexp separator
            (map (fun _ => false) (codes meta_col)) s ;;
     Ok (mask_or mtch d)).
Proof.
  intros Hl. unfold match_value.
  destruct (use_string_comparison meta_col s).
  - destruct (negb regexp && value_is s (str "*") && is_none level).
    + cbn [bind]. now rewrite mask_or_all_true.
    + destruct (compile _) as [pattern|]; [|reflexivity].
      destruct level as [lv|]; cbn [bind].
      * destruct (find_depth _ _ _ _) as [depth|e|]; cbn [bind];
          try reflexivity.
        rewrite mask_or_falses; [reflexivity|]. unfold isin. now rewrite length_map.
      * rewrite mask_or_falses; [reflexivity|]. unfold isin. now rewrite length_map.
  - destruct s as [t| |x].
    + cbn [bind]. rewrite mask_or_falses; [reflexivity|]. now rewrite length_map.
    + cbn [bind]. rewrite mask_or_falses; [reflexivity|]. now rewrite length_map.
    + unfold astype_float.
      destruct (traverse label_float (categories meta_col)) as [cats|e|];
        cbn [bind]; try reflexivity.
      rewrite mask_or_falses; [reflexivity|]. now rewrite !length_map.
Qed.

Lemma match_value_length (meta_col : CategoricalIndex F)
  (level : option level_arg) (regexp : bool) (separator : pystr)
  (mtch m : list bool) (s : value F) :
  match_value meta_col level regexp separator mtch s = Ok m ->
  List.length m = List.length mtch.
Proof.
  unfold match_value.
  destruct (use_string_comparison meta_col s).
  - destruct (negb regexp && value_is s (str "*") && is_none level).
    + intros [= <-]. now rewrite length_map.
    + destruct (compile _) as [pattern|]; [|discriminate].
      destruct level as [lv|]; cbn [bind].
      * destruct (find_depth _ _ _ _) as [depth|e|]; cbn [bind];
          try discriminate.
        intros [= <-]. apply mask_or_length.
      * intros [= <-]. apply mask_or_length.
  - destruct s as [t| |x].
    + intros [= <-]. apply mask_or_length.
    + intros [= <-]. apply mask_or_length.
    + destruct (astype_float meta_col) as [fl|e|]; cbn [bind];
        try discriminate.
      intros [= <-]. apply mask_or_length.
Qed.

Lemma match_values_length (meta_col : CategoricalIndex F)
  (level : option level_arg) (regexp : bool) (separator : pystr)
  (vs : list (value F)) (mtch m : list bool) :
  match_values meta_col level regexp separator mtch vs = Ok m ->
  List.length m = List.length mtch.
Proof.
  revert mtch. induction vs as [|s vs IH]; intros mtch; cbn [match_values].
  - now intros [= <-].
  - destruct (match_value _ _ _ _ mtch s) as [m1|e|] eqn:E; cbn [bind];
      try discriminate.
    intros H. rewrite (IH _ H). eapply match_value_length; eassumption.
Qed.

(** X1: whenever [pattern_match] returns, its mask has one entry per row
    of the column. *)
Theorem pattern_match_mask_length (meta_col : CategoricalIndex F)
  (values : values_arg) (level : option level_arg) (regexp : bool)
  (separator : pystr) (mask : list bool)
  (Hok : pattern_match meta_col values level regexp separator = Ok mask) :
  List.length mask = List.length (codes meta_col).
Proof.
  unfold pattern_match in Hok.
  apply match_values_length in Hok. now rewrite length_map in Hok.
Qed.

Lemma mask_or_false_r (a : list bool) (l : list Z) :
  mask_or a (map (fun _ => false) l) = a.
Proof.
  revert l. induction a as [|x a IH]; intros [|z l]; try reflexivity.
  simpl. now rewrite orb_false_r, IH.
Qed.

Lemma match_values_or (meta_col : CategoricalIndex F)
  (level : option level_arg) (regexp : bool) (separator : pystr)
  (vs : list (value F)) (mtch : list bool) :
  List.length mtch = List.length (codes meta_col) ->
  match_values meta_col level regexp separator mtch vs
  = (r <- match_values meta_col level regexp separator
            (map (fun _ => false) (codes meta_col)) vs ;;
     Ok (mask_or mtch r)).
Proof.
  revert mtch. induction vs as [|s vs IH]; intros mtch Hl.
  - cbn [match_values bind]. now rewrite mask_or_false_r.
  - cbn [match_values].
    rewrite (match_value_or _ _ _ _ mtch) by assumption.
    destruct (match_value meta_col level regexp separator
                (map (fun _ => false) (codes meta_col)) s) as [d|e|] eqn:Ed;
      cbn [bind]; try reflexivity.
    pose proof (match_value_length _ _ _ _ _ _ _ Ed) as Hd.
    rewrite length_map in Hd.
    rewrite (IH (mask_or mtch d)) by (now rewrite mask_or_length).
    rewrite (IH d) by assumption.
    destruct (match_values meta_col level regexp separator
                (map (fun _ => false) (codes meta_col)) vs) as [r|e|];
      cbn [bind]; try reflexivity.
    rewrite mask_or_assoc; [reflexivity | congruence].
Qed.

(** X2: the loop over the values takes the union: when the first value
    alone gives [m1] and the remaining values give [m2], all of them
    together give [m1] or [m2], row by row. *)
Theorem pattern_match_values_union (meta_col : CategoricalIndex F)
  (v : value F) (vs : list (value F)) (level : option level_arg)
  (regexp : bool) (separator : pystr) (m1 m2 : list bool)
  (H1 : pattern_match meta_col (Single v) level regexp separator = Ok m1)
  (H2 : pattern_match meta_col (Many vs) level regexp separator = Ok m2) :
  pattern_match meta_col (Many (v :: vs)) level regexp separator
  = Ok (mask_or m1 m2).
Proof.
  unfold pattern_match in *. cbn [match_values] in *.
  destruct (match_value meta_col level regexp separator
              (map (fun _ => false) (codes meta_col)) v) as [d|e|] eqn:Ed;
    cbn [bind] in *; try discriminate H1.
  injection H1 as <-.
  pose proof (match_value_length _ _ _ _ _ _ _ Ed) as Hd.
  rewrite length_map in Hd.
  rewrite (match_values_or _ _ _ _ vs d) by assumption.
  now rewrite H2.
Qed.

(** Rows without a category are never in [isin]. *)
Lemma isin_missing (meta_col : CategoricalIndex F) (subset : list (label F))
  (i : nat) (c : Z) :
  nth_error (codes meta_col) i = Some c -> c < 0 ->
  nth_error (isin meta_col subset) i = Some false.
Proof.
  intros Hi Hc. unfold isin. rewrite nth_error_map, Hi. cbn [option_map].
  unfold row_label. now replace (c <? 0) with true by (symmetry; now apply Z.ltb_lt).
Qed.

(** What a value compared as a string selects, the bare "*" apart. *)
Lemma match_string_value (meta_col : CategoricalIndex F) (v : value F)
  (level : option level_arg) (regexp : bool) (separator : pystr)
  (mask : list bool) :
  use_string_comparison meta_col v = true ->
  negb regexp && value_is v (str "*") && is_none level = false ->
  pattern_match meta_col (Single v) level regexp separator = Ok mask ->
  exists pattern depth,
    compile (if regexp then py_str_value v
             else pseudo_regexp (py_str_value v)) = Some pattern
    /\ (match level with
        | None => True
        | Some lv =>
          find_depth meta_col (py_str_value v) lv separator = Ok depth
        end)
    /\ mask = isin meta_col
               (match level with
                | None => glob_subset (categories meta_col) pattern
                | Some _ =>
                  filter (fun m => existsb (label_eqb m) depth)
                    (glob_subset (categories meta_col) pattern)
                end).
Proof.
  intros Hs Hb. unfold pattern_match, match_values, match_value.
  rewrite Hs, Hb.
  destruct (compile _) as [pattern|]; [|discriminate].
  destruct level as [lv|]; cbn [bind].
  - destruct (find_depth _ _ _ _) as [depth|e|]; cbn [bind]; try discriminate.
    intros [= <-]. exists pattern, depth. repeat split.
    unfold isin. now rewrite mask_or_false_l.
  - intros [= <-]. exists pattern, []. repeat split.
    unfold isin. now rewrite mask_or_false_l.
Qed.

(** X3: a value compared as a string, other than the bare "*" without
    level, never selects a row whose category is missing. *)
Theorem pattern_match_skips_missing_rows (meta_col : CategoricalIndex F)
  (v : value F) (level : option level_arg) (regexp : bool)
  (separator : pystr) (mask : list bool) (i : nat) (c : Z)
  (Hs : use_string_comparison meta_col v = true)
  (Hb : negb regexp && value_is v (str "*") && is_none level = false)
  (Hok : pattern_match meta_col (Single v) level regexp separator = Ok mask)
  (Hi : nth_error (codes meta_col) i = Some c) (Hc : c < 0) :
  nth_error mask i = Some false.
Proof.
  destruct (match_string_value _ _ _ _ _ _ Hs Hb Hok)
    as (pattern & depth & _ & _ & ->).
  eapply isin_missing; eassumption.
Qed.

Lemma isin_subset (meta_col : CategoricalIndex F) (P : label F -> bool)
  (subset : list (label F)) (i : nat) :
  nth_error (isin meta_col (filter P subset)) i = Some true ->
  nth_error (isin meta_col subset) i = Some true.
Proof.
  unfold isin. rewrite !nth_error_map.
  destruct (nth_error (codes meta_col) i) as [c|]; [|discriminate].
  cbn [option_map]. destruct (row_label meta_col c) as [m|]; [|discriminate].
  intros [= H]. f_equal.
  apply existsb_exists in H as (x & Hx & Hm).
  apply existsb_exists. exists x. apply filter_In in Hx. tauto.
Qed.

(** X4: a level only narrows the selection: a row selected with a level
    is selected by the same value without level. *)
Theorem pattern_match_level_narrows (meta_col : CategoricalIndex F)
  (v : value F) (lv : level_arg) (regexp : bool) (separator : pystr)
  (with_level without : list bool) (i : nat)
  (H1 : pattern_match meta_col (Single v) (Some lv) regexp separator
        = Ok with_level)
  (H0 : pattern_match meta_col (Single v) None regexp separator = Ok without)
  (Hi : nth_error with_level i = Some true) :
  nth_error without i = Some true.
Proof.
  destruct (use_string_comparison meta_col v) eqn:Hs.
  - assert (Hb1 : negb regexp && value_is v (str "*")
                  && is_none (Some lv) = false) by apply andb_false_r.
    destruct (match_string_value _ _ _ _ _ _ Hs Hb1 H1)
      as (p1 & depth & Hp1 & _ & ->).
    destruct (negb regexp && value_is v (str "*") && is_none (@None level_arg))
      eqn:Hb0.
    + unfold pattern_match, match_values, match_value in H0.
      rewrite Hs, Hb0 in H0. cbn [bind] in H0. injection H0 as <-.
      rewrite map_map, nth_error_map.
      unfold isin in Hi. rewrite nth_error_map in Hi.
      now destruct (nth_error (codes meta_col) i).
    + destruct (match_string_value _ _ _ _ _ _ Hs Hb0 H0)
        as (p0 & _ & Hp0 & _ & ->).
      assert (p0 = p1) as -> by congruence.
      eapply isin_subset; eassumption.
  - unfold pattern_match, match_values, match_value in H0, H1.
    rewrite Hs in H0, H1. congruence.
Qed.

End MaskFacts.

Section DepthFacts.

Context {F : Type} {ops : Builtins F}.

Lemma find_depth_strings (sd : bool) (codes : list Z) (cats : list pystr)
  (s : pystr) (level : level_arg) (separator : pystr) (test : Z -> bool) :
  depth_test level = Ok test ->
  find_depth (mkIndex (map LStr cats) sd codes) s level separator
  = Ok (map LStr
          (filter (fun v => test (Z.of_nat
                      (findall_count separator
                         (replace (replace (str "*") [] s) [] v))))
                  cats)).
Proof.
  intros Ht. unfold find_depth. rewrite Ht. cbn [bind categories].
  induction cats as [|v cats IH]; [reflexivity|].
  cbn [map traverse bind].
  destruct (traverse _ (map LStr cats)) as [keep|e|]; cbn [bind] in *;
    try discriminate IH.
  injection IH as IH.
  cbn [combine filter snd fst].
  destruct (test _); cbn [map fst]; now rewrite IH.
Qed.

Lemma replace_nothing (v : pystr) : replace [] [] v = v.
Proof.
  unfold replace. cbn [app].
  induction v as [|c v IH]; [reflexivity|]. cbn [flat_map app]. now rewrite IH.
Qed.

Lemma eqb_eq (s t : pystr) : PyStr.eqb s t = true <-> s = t.
Proof.
  unfold PyStr.eqb. destruct (list_eq_dec ascii_dec s t); split;
    congruence.
Qed.

Lemma existsb_label_filter (P : pystr -> bool) (cats : list pystr)
  (v : pystr) :
  In v cats ->
  existsb (label_eqb (LStr v)) (map (LStr (F := F)) (filter P cats)) = P v.
Proof.
  intros Hin. destruct (P v) eqn:Hp.
  - apply existsb_exists. exists (LStr v). split.
    + apply in_map, filter_In. auto.
    + now apply eqb_eq.
  - apply not_true_is_false. intros H.
    apply existsb_exists in H as (m & Hm & Heq).
    apply in_map_iff in Hm as (w & <- & Hw).
    apply eqb_eq in Heq as <-. apply filter_In in Hw. destruct Hw; congruence.
Qed.

Lemma glob_match_star_all (m : pystr) : glob_match (str "*") m = true.
Proof.
  change (str "*") with ("*"%char :: []).
  induction m as [|a m IH]; [reflexivity|].
  rewrite glob_match_star, IH. apply orb_true_r.
Qed.

(** X5: on a column of string labels without line feed, the value "*"
    with a level selects a row exactly when its label passes the depth
    test on the number of separators it contains; rows without a category
    are not selected. *)
Theorem star_with_level_selects_by_depth (sd : bool) (rc : list Z)
  (cats : list pystr) (lv : level_arg) (separator : pystr)
  (test : Z -> bool)
  (Hnl : forallb no_newline cats = true)
  (Ht : depth_test lv = Ok test) :
  pattern_match (mkIndex (map LStr cats) sd rc)
    (Single (VStr (str "*"))) (Some lv) false separator
  = Ok (map (fun c =>
               match row_label (F := F)
                       (mkIndex (map LStr cats) sd rc) c with
               | Some (LStr v) =>
                 test (Z.of_nat (findall_count separator v))
               | _ => false
               end) rc).
Proof.
  change (str "*") with ["*"%char] at 1.
  rewrite pattern_match_single_level.
  change ["*"%char] with (str "*").
  rewrite compile_pseudo_regexp by reflexivity.
  rewrite (find_depth_strings _ _ _ _ _ _ test Ht). cbn [bind].
  unfold isin. cbn [codes categories]. f_equal.
  apply map_ext. intros c.
  destruct (row_label _ c) as [m|] eqn:Hr; [|reflexivity].
  unfold row_label in Hr. cbn [categories] in Hr.
  destruct (c <? 0); [discriminate Hr|].
  apply nth_error_In in Hr. apply in_map_iff in Hr as (v & <- & Hv).
  change (replace (str "*") [] (str "*")) with (@nil ascii).
  set (P := fun v => test (Z.of_nat (findall_count separator
                                       (replace [] [] v)))).
  assert (HP : P v = test (Z.of_nat (findall_count separator v)))
    by (unfold P; now rewrite replace_nothing).
  rewrite <- HP. rewrite <- (existsb_label_filter P cats v Hv).
  set (D := map (LStr (F := F)) (filter P cats)).
  destruct (existsb (label_eqb (LStr v)) D) eqn:ED.
  - apply existsb_exists. exists (LStr v). split; [|now apply eqb_eq].
    apply filter_In. split; [|exact ED].
    unfold glob_subset. apply filter_In. split; [now apply in_map|].
    cbn [py_str_label]. rewrite matches_glob.
    + apply glob_match_star_all.
    + rewrite forallb_forall in Hnl. now apply Hnl.
  - apply not_true_is_false. intros H.
    apply existsb_exists in H as (m & Hm & Heq).
    apply filter_In in Hm as [_ Hm].
    destruct m as [w|x]; [|discriminate Heq].
    apply eqb_eq in Heq as <-. congruence.
Qed.

Lemma filter_labels (Q : label F -> bool) (cats : list pystr) :
  filter Q (map LStr cats) = map LStr (filter (fun v => Q (LStr v)) cats).
Proof.
  induction cats as [|v cats IH]; [reflexivity|].
  cbn [map filter]. destruct (Q (LStr v)); cbn [map]; now rewrite IH.
Qed.

(** X6: on a column of string labels without line feed, a value that is
    not empty, not the bare "*", and has no backslash, question mark,
    bracket or brace selects a row exactly when the label of the row
    matches the value over its full extent, "*" standing for any
    substring; rows without a category are not selected. *)
Theorem pattern_match_glob_rows (sd : bool) (rc : list Z)
  (cats : list pystr) (s separator : pystr)
  (Hne : s <> []) (Hstar : s <> str "*")
  (Hs : forallb glob_char s = true)
  (Hnl : forallb no_newline cats = true) :
  pattern_match (mkIndex (map LStr cats) sd rc) (Single (VStr s)) None false
    separator
  = Ok (map (fun c =>
               match row_label (F := F)
                       (mkIndex (map LStr cats) sd rc) c with
               | Some (LStr v) => glob_match s v
               | _ => false
               end) rc).
Proof.
  rewrite pattern_match_single_glob by assumption.
  rewrite compile_pseudo_regexp by assumption.
  unfold isin, glob_subset. cbn [Filters.codes categories]. f_equal.
  apply map_ext. intros c.
  destruct (row_label _ c) as [m|] eqn:Hr; [|reflexivity].
  unfold row_label in Hr. cbn [categories] in Hr.
  destruct (c <? 0); [discriminate Hr|].
  apply nth_error_In in Hr. apply in_map_iff in Hr as (v & <- & Hv).
  rewrite filter_labels, (existsb_label_filter _ cats v Hv).
  cbn [py_str_label]. apply matches_glob.
  rewrite forallb_forall in Hnl. now apply Hnl.
Qed.

End DepthFacts.

(** ** The time-component matchers, continued *)

(** X9: on a list [years_match] returns the membership mask when every
    element is an integer and raises [TypeError] otherwise; on an integer
    it marks the data equal to it. *)
Theorem years_match_on_lists (data l : list pyval) (y : Z) :
  years_match data (PList l)
  = (if forallb is_int l
     then Ok (map (fun v => existsb (py_eq v) l) data)
     else Raise TypeError)
  /\ years_match data (PInt y)
     = Ok (map (fun v => py_eq v (PInt y)) data).
Proof.
  split.
  - unfold years_match. cbn [is_int all_int].
    destruct (forallb is_int l); cbn [negb]; [apply is_in_list | reflexivity].
  - unfold years_match. cbn [is_int all_int forallb andb negb].
    rewrite is_in_list. f_equal. apply map_ext. intros v.
    cbn [existsb]. apply orb_false_r.
Qed.

Lemma lower_char_dash (c : ascii) :
  Ascii.eqb "-" (lower_char c) = Ascii.eqb "-" c.
Proof.
  destruct c as [[] [] [] [] [] [] [] []]; reflexivity.
Qed.

Lemma char_in_lower_dash (t : pystr) :
  char_in "-" (lower t) = char_in "-" t.
Proof.
  unfold char_in, lower. induction t as [|c t IH]; [reflexivity|].
  cbn [map existsb]. now rewrite lower_char_dash, IH.
Qed.

Lemma index_of_in (t : pystr) (table : list pystr) (i z : Z) :
  index_of t table i = Some z -> In t table.
Proof.
  revert i. induction table as [|n table IH]; intros i; [discriminate|].
  cbn [index_of]. unfold PyStr.eqb.
  destruct (list_eq_dec ascii_dec t n) as [->|_]; [now left|].
  intros H. right. eauto.
Qed.

Lemma strptime_name_rejects (table : list pystr) (first : Z) :
  forallb (fun n => negb (char_in "-" n)) table = true ->
  rejects_ranges (strptime_name table first).
Proof.
  intros Htab t Ht. unfold strptime_name.
  destruct (index_of (lower t) table first) as [z|] eqn:E; [|reflexivity].
  apply index_of_in in E. rewrite forallb_forall in Htab.
  specialize (Htab _ E). rewrite char_in_lower_dash, Ht in Htab.
  discriminate Htab.
Qed.

Lemma contains_char (c : ascii) (s : pystr) :
  contains [c] s = char_in c s.
Proof.
  unfold char_in.
  induction s as [|x s IH]; [reflexivity|].
  cbn [contains startswith existsb]. rewrite IH.
  now destruct (Ascii.eqb c x).
Qed.

Lemma py_in_dash (t : pystr) :
  py_in (PStr (str "-")) (PStr t) = Ok (char_in "-" t).
Proof.
  cbn [py_in]. change (str "-") with ["-"%char]. now rewrite contains_char.
Qed.

Lemma split_no_sep (c : ascii) (s : pystr) :
  char_in c s = false -> split c s = [s].
Proof.
  unfold char_in.
  induction s as [|x s IH]; [reflexivity|].
  cbn [existsb split]. intros H. apply orb_false_elim in H as [Hx Hs].
  rewrite Ascii.eqb_sym, Hx. now rewrite IH.
Qed.

Lemma split_range (c : ascii) (a b : pystr) :
  char_in c a = false -> char_in c b = false ->
  split c (a ++ c :: b) = [a; b].
Proof.
  unfold char_in. intros Ha Hb.
  induction a as [|x a IH].
  - cbn [app split]. rewrite Ascii.eqb_refl. now rewrite split_no_sep.
  - cbn [existsb] in Ha. apply orb_false_elim in Ha as [Hx Ha].
    cbn [app split]. rewrite Ascii.eqb_sym, Hx. now rewrite IH.
Qed.

Lemma char_in_app (c : ascii) (a b : pystr) :
  char_in c (a ++ b) = char_in c a || char_in c b.
Proof.
  unfold char_in. apply existsb_app.
Qed.

Lemma conv_strs_first (conv : converter) (rest : list converter)
  (l : list pyval) (ints : list Z) :
  conv_all conv l = Ok (Some ints) ->
  conv_strs l (conv :: rest) = Ok ints.
Proof.
  intros H. cbn [conv_strs]. now rewrite H.
Qed.

(** Names without "-" leave the scan as it is. *)
Lemma scan_names (codes : list converter) (names : list pystr) (i : nat)
  (td : list nat) (ta : list Z) (rest : list pyval) :
  Forall (fun t => char_in "-" t = false) names ->
  scan_ranges codes i (map PStr names ++ rest) td ta
  = scan_ranges codes (i + List.length names) rest td ta.
Proof.
  intros H. revert i. induction H as [|t names Ht _ IH]; intros i.
  - cbn [map app List.length]. now rewrite Nat.add_0_r.
  - cbn [map app scan_ranges List.length]. rewrite py_in_dash, Ht.
    cbn [bind]. rewrite IH. f_equal. lia.
Qed.

Lemma del_item_middle (A : Type) (l1 l2 : list A) (x : A) :
  del_item (l1 ++ x :: l2) (List.length l1) = Ok (l1 ++ l2).
Proof.
  induction l1 as [|a l1 IH]; [reflexivity|].
  cbn [app List.length del_item]. now rewrite IH.
Qed.

Lemma conv_all_app (conv : converter) (l1 l2 : list pyval)
  (r1 r2 : list Z) :
  conv_all conv l1 = Ok (Some r1) -> conv_all conv l2 = Ok (Some r2) ->
  conv_all conv (l1 ++ l2) = Ok (Some (r1 ++ r2)).
Proof.
  revert r1. induction l1 as [|v l1 IH]; intros r1 H1 H2.
  - injection H1 as <-. exact H2.
  - cbn [app conv_all] in *. destruct v as [z|q|t|l]; try discriminate H1.
    destruct (conv t) as [z|]; [|discriminate H1].
    destruct (conv_all conv l1) as [[r|]|e|]; cbn [bind option_map] in H1;
      try discriminate H1.
    injection H1 as <-. now rewrite (IH r eq_refl H2).
Qed.

Lemma range_incl_spec (i j z : Z) : In z (range_incl i j) <-> i <= z <= j.
Proof.
  unfold range_incl. rewrite in_map_iff. split.
  - intros (k & <- & Hk). apply in_seq in Hk. lia.
  - intros H. exists (Z.to_nat (z - i)). split; [lia|].
    apply in_seq. lia.
Qed.

(** X7: a list of names with one range string among them, all converted
    by the first conversion code and the range increasing, matches the
    integers of the names together with every integer of the range; an
    integer is in the range exactly when it lies between its ends. *)
Theorem time_match_one_range (data : list pyval) (conv : converter)
  (rest : list converter) (pre post : list pystr) (a b : pystr)
  (ipre ipost : list Z) (i j : Z)
  (Hpre : Forall (fun t => char_in "-" t = false) pre)
  (Hpost : Forall (fun t => char_in "-" t = false) post)
  (Ha : char_in "-" a = false) (Hb : char_in "-" b = false)
  (Cpre : conv_all conv (map PStr pre) = Ok (Some ipre))
  (Cpost : conv_all conv (map PStr post) = Ok (Some ipost))
  (Ca : conv a = Some i) (Cb : conv b = Some j) (Hij : i <= j) :
  time_match data
    (PList (map PStr pre ++ PStr (a ++ "-"%char :: b) :: map PStr post))
    (conv :: rest)
  = Ok (map (fun v => existsb (py_eq v)
                        (map PInt (ipre ++ ipost ++ range_incl i j))) data)
  /\ forall z, In z (range_incl i j) <-> i <= z <= j.
Proof.
  split; [|apply range_incl_spec].
  set (r := PStr (a ++ "-"%char :: b)).
  assert (Hscan : scan_ranges (conv :: rest) 0
                    (map PStr pre ++ r :: map PStr post) [] []
                  = Ok ([List.length pre], range_incl i j)).
  { rewrite scan_names by assumption. cbn [Nat.add].
    subst r. cbn [scan_ranges]. rewrite py_in_dash, char_in_app.
    replace (char_in "-" ("-"%char :: b)) with true by reflexivity.
    rewrite orb_true_r. cbn [bind].
    rewrite split_range by assumption.
    cbn [map conv_strs conv_all]. rewrite Ca, Cb. cbn [bind option_map].
    assert (Hgt : (i >? j) = false)
      by (rewrite Z.gtb_ltb; apply Z.ltb_ge; lia).
    rewrite Hgt.
    rewrite <- (app_nil_r (map PStr post)).
    rewrite scan_names by assumption. reflexivity. }
  assert (Hgo :
    (found <- scan_ranges (conv :: rest) 0
                (map PStr pre ++ r :: map PStr post) [] [] ;;
     let (to_delete, to_append) := found in
     times_list' <- del_items (map PStr pre ++ r :: map PStr post)
                      to_delete ;;
     converted <- conv_strs times_list' (conv :: rest) ;;
     is_in data (PList (map PInt (converted ++ to_append))))
    = Ok (map (fun v => existsb (py_eq v)
                 (map PInt (ipre ++ ipost ++ range_incl i j))) data)).
  { rewrite Hscan. cbn [bind del_items].
    rewrite <- (length_map PStr pre), del_item_middle. cbn [bind].
    rewrite (conv_strs_first _ _ _ (ipre ++ ipost))
      by (now apply conv_all_app).
    cbn [bind]. rewrite <- app_assoc. apply is_in_list. }
  unfold time_match.
  destruct pre as [|p pre]; cbn [map app] in *; exact Hgo.
Qed.

(** A scan that succeeds has collected the positions of the range strings. *)
Lemma scan_positions (codes : list converter) (l : list pyval) (i : nat)
  (td td' : list nat) (ta ta' : list Z) :
  scan_ranges codes i l td ta = Ok (td', ta') ->
  td' = td ++ range_positions i l.
Proof.
  revert i td ta. induction l as [|v l IH]; intros i td ta H.
  - cbn in H. injection H as <- <-. now rewrite app_nil_r.
  - cbn [scan_ranges] in H. cbn [range_positions].
    destruct v as [z|q|t|m]; try discriminate H.
    + rewrite py_in_dash in H. cbn [bind is_range] in *.
      destruct (char_in "-" t).
      * destruct (conv_strs _ codes) as [ints|e|]; cbn [bind] in H;
          try discriminate H.
        destruct ints as [|i0 [|i1 ints]]; try discriminate H.
        destruct (i0 >? i1); [discriminate H|].
        apply IH in H. rewrite H, <- app_assoc. reflexivity.
      * eauto.
    + cbn [py_in bind is_range] in *.
      destruct (existsb _ m); [discriminate H|]. eauto.
Qed.

Lemma range_positions_bound (l : list pyval) (i p : nat) :
  In p (range_positions i l) ->
  (i <= p)%nat /\ exists t, nth_error l (p - i) = Some (PStr t)
                            /\ char_in "-" t = true.
Proof.
  revert i. induction l as [|v l IH]; intros i Hin; [destruct Hin|].
  cbn [range_positions] in Hin.
  assert (Hrec : In p (range_positions (S i) l) ->
                 (i <= p)%nat /\ exists t, nth_error (v :: l) (p - i)
                                           = Some (PStr t)
                                           /\ char_in "-" t = true).
  { intros H. apply IH in H as (Hle & t & Ht & Hd).
    split; [lia|]. exists t. split; [|assumption].
    replace (p - i)%nat with (S (p - S i)) by lia. exact Ht. }
  destruct (is_range v) eqn:Hv; [|auto].
  destruct Hin as [<-|Hin]; [|auto].
  split; [lia|]. rewrite Nat.sub_diag.
  destruct v as [z|q|t|m]; try discriminate Hv. now exists t.
Qed.

Lemma range_positions_length (l : list pyval) (i : nat) :
  List.length (range_positions i l) = List.length (filter is_range l).
Proof.
  revert i. induction l as [|v l IH]; intros i; [reflexivity|].
  cbn [range_positions filter]. destruct (is_range v); cbn [List.length];
    now rewrite IH.
Qed.

Lemma range_positions_above (l : list pyval) (i p : nat) :
  In p (range_positions (S i) l) -> (i < p)%nat.
Proof.
  intros H. apply range_positions_bound in H. lia.
Qed.

(** The positions come in increasing order. *)
Lemma range_positions_second (l : list pyval) (i p1 p2 : nat)
  (ps : list nat) :
  range_positions i l = p1 :: p2 :: ps ->
  (p1 < p2)%nat /\ Forall (fun k => (p2 <= k)%nat) (p2 :: ps).
Proof.
  revert i. induction l as [|v l IH]; intros i H; [discriminate H|].
  cbn [range_positions] in H.
  destruct (is_range v); [|eauto].
  injection H as <- H. split.
  - apply (range_positions_above l). rewrite H. now left.
  - clear IH. revert H. generalize (S i) as k. revert p2 ps.
    induction l as [|w l IHl]; intros p2 ps k H; [discriminate H|].
    cbn [range_positions] in H. destruct (is_range w); [|eauto].
    injection H as <- H. constructor; [lia|].
    apply Forall_forall. intros q Hq.
    assert (k < q)%nat by (apply (range_positions_above l); now rewrite H).
    lia.
Qed.

Lemma del_item_before (A : Type) (l l' : list A) (k p : nat) (x : A) :
  nth_error l p = Some x -> (p < k)%nat -> del_item l k = Ok l' ->
  nth_error l' p = Some x.
Proof.
  revert k p l'. induction l as [|a l IH]; intros k p l' Hp Hk Hd.
  - destruct p; discriminate Hp.
  - destruct k as [|k]; [lia|]. cbn [del_item] in Hd.
    destruct (del_item l k) as [l''|e|] eqn:E; try discriminate Hd.
    injection Hd as <-. destruct p as [|p]; [exact Hp|].
    cbn [nth_error] in *. eapply IH; try eassumption. lia.
Qed.

Lemma del_item_after (A : Type) (l l' : list A) (k p : nat) (x : A) :
  nth_error l (S p) = Some x -> (k <= p)%nat -> del_item l k = Ok l' ->
  nth_error l' p = Some x.
Proof.
  revert k p l'. induction l as [|a l IH]; intros k p l' Hp Hk Hd.
  - discriminate Hp.
  - destruct k as [|k]; cbn [del_item] in Hd.
    + injection Hd as <-. exact Hp.
    + destruct (del_item l k) as [l''|e|] eqn:E; try discriminate Hd.
      injection Hd as <-. destruct p as [|p]; [lia|].
      cbn [nth_error] in *. eapply IH; try eassumption. lia.
Qed.

Lemma del_items_before (A : Type) (idxs : list nat) (l l' : list A)
  (p : nat) (x : A) :
  nth_error l p = Some x -> Forall (fun k => (p < k)%nat) idxs ->
  del_items l idxs = Ok l' -> nth_error l' p = Some x.
Proof.
  revert l. induction idxs as [|k idxs IH]; intros l Hp Hall Hd.
  - now injection Hd as <-.
  - cbn [del_items] in Hd. inversion Hall as [|? ? Hk Hrest]; subst.
    destruct (del_item l k) as [l1|e|] eqn:E; try discriminate Hd.
    cbn [bind] in Hd. apply (IH l1); try assumption.
    eapply del_item_before; eassumption.
Qed.

Lemma conv_all_rejects (conv : converter) (l : list pyval) (t : pystr)
  (r : list Z) :
  In (PStr t) l -> conv t = None -> conv_all conv l <> Ok (Some r).
Proof.
  revert r. induction l as [|v l IH]; intros r Hin Hc; [destruct Hin|].
  cbn [conv_all]. destruct v as [z|q|u|m]; try discriminate.
  destruct Hin as [[= ->]|Hin].
  - rewrite Hc. discriminate.
  - destruct (conv u); [|discriminate].
    destruct (conv_all conv l) as [[r'|]|e|] eqn:E; cbn [bind option_map];
      try discriminate.
    exfalso. now apply (IH r').
Qed.

Lemma conv_strs_rejects (codes : list converter) (l : list pyval)
  (t : pystr) (r : list Z) :
  Forall rejects_ranges codes ->
  In (PStr t) l -> char_in "-" t = true -> conv_strs l codes <> Ok r.
Proof.
  intros Hall Hin Ht. induction Hall as [|conv codes Hc _ IH];
    cbn [conv_strs]; [discriminate|].
  destruct (conv_all conv l) as [[r'|]|e|] eqn:E; cbn [bind];
    try discriminate; [|exact IH].
  exfalso. eapply conv_all_rejects; eauto.
Qed.

Lemma time_match_two_ranges (data : list pyval)
  (t0 : pystr) (l : list pyval) (conv_codes : list converter)
  (mask : list bool)
  (Hcodes : Forall rejects_ranges conv_codes)
  (Htwo : (2 <= List.length (filter is_range (PStr t0 :: l)))%nat) :
  time_match data (PList (PStr t0 :: l)) conv_codes <> Ok mask.
Proof.
  unfold time_match. set (L := PStr t0 :: l) in *.
  change (match L with
          | [] => Raise IndexError
          | PStr _ :: _ =>
            found <- scan_ranges conv_codes 0 L [] [] ;;
            (let (to_delete, to_append) := found in
             times_list' <- del_items L to_delete ;;
             converted <- conv_strs times_list' conv_codes ;;
             is_in data (PList (map PInt (converted ++ to_append))))
          | _ :: _ => is_in data (PList L)
          end <> Ok mask).
  unfold L at 1.
  destruct (scan_ranges conv_codes 0 L [] []) as [[td ta]|e|] eqn:Hscan;
    cbn [bind]; try discriminate.
  apply scan_positions in Hscan. cbn [app] in Hscan. subst td.
  rewrite <- (range_positions_length L 0) in Htwo.
  destruct (range_positions 0 L) as [|p1 [|p2 ps]] eqn:Hpos;
    cbn [List.length] in Htwo; try lia.
  destruct (range_positions_second _ _ _ _ _ Hpos) as [Hlt Hall].
  assert (Hin2 : In p2 (range_positions 0 L)) by (rewrite Hpos; cbn; auto).
  apply range_positions_bound in Hin2 as (_ & t & Ht & Hdash).
  rewrite Nat.sub_0_r in Ht.
  destruct p2 as [|p2]; [lia|].
  change (del_items L (p1 :: S p2 :: ps))
    with (l' <- del_item L p1 ;; del_items l' (S p2 :: ps)).
  destruct (del_item L p1) as [L1|e|] eqn:Hd1; cbn [bind]; try discriminate.
  assert (H1 : nth_error L1 p2 = Some (PStr t))
    by (eapply del_item_after; try eassumption; lia).
  destruct (del_items L1 (S p2 :: ps)) as [L2|e|] eqn:Hd2; cbn [bind];
    try discriminate.
  assert (H2 : nth_error L2 p2 = Some (PStr t)).
  { eapply del_items_before; eassumption. }
  apply nth_error_In in H2.
  destruct (conv_strs L2 conv_codes) as [r|e|] eqn:Hc; cbn [bind];
    try discriminate.
  exfalso. eapply conv_strs_rejects; eauto.
Qed.

(** X8: [month_match] and [day_match] never return a mask for a list
    that starts with a string and holds two or more range strings: the
    deletion loop leaves the second range in the list (or runs out of the
    list), and no conversion code converts a range. *)
Theorem month_day_match_two_ranges (data : list pyval) (t0 : pystr)
  (l : list pyval) (mask : list bool)
  (Htwo : (2 <= List.length (filter is_range (PStr t0 :: l)))%nat) :
  month_match data (PList (PStr t0 :: l)) <> Ok mask
  /\ day_match data (PList (PStr t0 :: l)) <> Ok mask.
Proof.
  split; apply time_match_two_ranges; try assumption;
    repeat constructor; now apply strptime_name_rejects.
Qed.

Lemma conv_all_names_fail (conv : converter) (names : list pystr)
  (t : pystr) :
  In t names -> conv t = None -> conv_all conv (map PStr names) = Ok None.
Proof.
  intros Hin Hc. induction names as [|u names IH]; [destruct Hin|].
  cbn [map conv_all]. destruct Hin as [->|Hin].
  - now rewrite Hc.
  - destruct (conv u); [|reflexivity]. now rewrite (IH Hin).
Qed.

(** X19: names that no single conversion code converts all raise
    [ValueError]: with two codes, a list holding a name the first code
    does not convert and a name the second code does not convert is
    refused, as a month abbreviation next to a full month name is. *)
Theorem time_match_mixed_names (data : list pyval) (c1 c2 : converter)
  (names : list pystr) (t1 t2 : pystr)
  (Hnames : Forall (fun t => char_in "-" t = false) names)
  (H1 : In t1 names) (H2 : In t2 names)
  (Hc1 : c1 t1 = None) (Hc2 : c2 t2 = None) :
  time_match data (PList (map PStr names)) [c1; c2] = Raise ValueError.
Proof.
  assert (Hgo :
    (found <- scan_ranges [c1; c2] 0 (map PStr names) [] [] ;;
     let (to_delete, to_append) := found in
     times_list' <- del_items (map PStr names) to_delete ;;
     converted <- conv_strs times_list' [c1; c2] ;;
     is_in data (PList (map PInt (converted ++ to_append))))
    = Raise ValueError).
  { rewrite <- (app_nil_r (map PStr names)) at 1.
    rewrite scan_names by assumption.
    cbn [scan_ranges bind del_items conv_strs].
    rewrite (conv_all_names_fail c1 names t1 H1 Hc1). cbn [bind].
    now rewrite (conv_all_names_fail c2 names t2 H2 Hc2). }
  unfold time_match.
  destruct names as [|u names]; [destruct H1 | exact Hgo].
Qed.

(** ** The range generator, continued *)

Section AnyOffset.

Variable offset : CFTimeOffset.

Lemma range_up_chain (fuel : nat) (current end_ : datetime)
  (l : list datetime) :
  range_up offset fuel current end_ = Ok l ->
  l = [] \/ exists l', l = current :: l' /\ chain offset current l'.
Proof.
  revert current l. induction fuel as [|fuel IH]; intros current l;
    cbn [range_up]; destruct (current <=? end_);
    try discriminate; try (intros [= <-]; now left).
  destruct (add offset current <=? current) eqn:E; [discriminate|].
  apply Z.leb_gt in E.
  destruct (range_up offset fuel (add offset current) end_) as [rest|e|]
    eqn:Hr; cbn [bind]; try discriminate.
  intros [= <-]. right. exists rest. split; [reflexivity|].
  destruct (IH _ _ Hr) as [->|(l' & -> & Hc)]; cbn [chain]; auto.
Qed.


(** X11: when the rolled start is not after the rolled end and the offset
    does not move the rolled start forward, [generate_range] raises
    [ValueError]. *)
Theorem generate_range_stuck_offset (start end_ : datetime)
  (Hn : 0 <= n offset)
  (Hle : rollforward offset (rollback offset start)
         <= rollback offset (rollforward offset end_))
  (Hstuck : add offset (rollforward offset (rollback offset start))
            <= rollforward offset (rollback offset start)) :
  generate_range start end_ offset = Raise ValueError.
Proof.
  unfold generate_range, cftime_range, _generate_range.
  set (a := rollforward offset (rollback offset start)) in *.
  set (b := rollback offset (rollforward offset end_)) in *.
  replace (b <? a) with false by (symmetry; apply Z.ltb_ge; lia).
  replace (n offset >=? 0) with true by (symmetry; apply Z.geb_le; lia).
  destruct (Z.to_nat (b - a + 1)) as [|fuel] eqn:E; [lia|].
  cbn [range_up].
  replace (a <=? b) with true by (symmetry; apply Z.leb_le; lia).
  now replace (add offset a <=? a) with true by (symmetry; apply Z.leb_le; lia).
Qed.


End AnyOffset.

(** ** The keys of the groups *)

Section KeyFacts.

Import Groupby GroupbyKeys.

Variable float_of_text : pystr -> option Q.

Lemma try_fill_value_cell (na_fill : Q) (c : cell) :
  cell_eqb c na_fill = false ->
  (forall s q, c = Text s -> float_of_text s = Some q ->
               Qeq_bool q na_fill = false) ->
  _try_fill_value float_of_text na_fill (fill_cell na_fill c) = c.
Proof.
  intros Hnum Htext.
  destruct c as [|q|s]; cbn [fill_cell _try_fill_value].
  - replace (Qeq_bool na_fill na_fill) with true; [reflexivity|].
    symmetry. apply Qeq_bool_iff. reflexivity.
  - cbn [cell_eqb] in Hnum. now rewrite Hnum.
  - destruct (float_of_text s) as [q|] eqn:E; [|reflexivity].
    now rewrite (Htext s q eq_refl E).
Qed.


End KeyFacts.

(** ** Processing *)

Import Processing.

Lemma le_three_halves_two (q : Q) :
  Qle_bool q (3 # 2) = true -> Qle_bool q 2 = true.
Proof.
  rewrite !Qle_bool_iff. intros H.
  apply (Qle_trans _ (3 # 2)); [exact H | discriminate].
Qed.

(** X14: [categorisation_sr15] leaves a row without category exactly
    when the peak of the median is not a number and the peak of the 66th
    percentile is not at most 2. *)
Theorem categorise_unclassified (peak_median peak_p33 peak_p66
  end_of_century_median : pyfloat) :
  categorise peak_median peak_p33 peak_p66 end_of_century_median = None
  <-> peak_median = None /\ le peak_p66 2 = false.
Proof.
  unfold categorise, assign.
  destruct peak_median as [pm|]; cbn [gt le].
  - split; [|intros [H _]; discriminate H].
    destruct (Qle_bool pm (3 # 2)) eqn:E15.
    + rewrite (le_three_halves_two _ E15). cbn [negb andb].
      destruct (le peak_p66 2); discriminate.
    + cbn [negb andb].
      destruct (Qle_bool pm 2), (le end_of_century_median (3 # 2)),
        (le peak_p33 (3 # 2)), (gt peak_p33 (3 # 2)), (le peak_p66 2);
        cbn; discriminate.
  - cbn [andb Filters.is_none negb].
    destruct (le peak_p66 2); split; try discriminate; try tauto.
    intros [_ H]; discriminate H.
Qed.

(** X15: on finite values the assignments of [categorisation_sr15]
    amount to this decision: a peak median of at most 1.5 is "Below 1.5C";
    otherwise a median of at most 1.5 at the end of the century is an
    overshoot, low or high by the peak of the 33rd percentile, also when
    the peak median exceeds 2; otherwise a peak median above 2 is
    "Above 2C", and the rest is "Lower 2C" or "Higher 2C" by the peak of
    the 66th percentile. *)
Theorem categorise_decision (pm p33 p66 eoc : Q) :
  categorise (Some pm) (Some p33) (Some p66) (Some eoc)
  = Some (if Qle_bool pm (3 # 2) then Below_1_5C
          else if Qle_bool eoc (3 # 2) then
                 if Qle_bool p33 (3 # 2) then Low_overshoot_1_5C
                 else High_overshoot_1_5C
          else if Qle_bool pm 2 then
                 if Qle_bool p66 2 then Lower_2C else Higher_2C
          else Above_2C).
Proof.
  unfold categorise, assign. cbn [gt le].
  destruct (Qle_bool pm (3 # 2)) eqn:E15.
  - rewrite (le_three_halves_two _ E15). reflexivity.
  - destruct (Qle_bool pm 2), (Qle_bool eoc (3 # 2)),
      (Qle_bool p33 (3 # 2)), (Qle_bool p66 2); reflexivity.
Qed.

Section CrossingFacts.

Variable time : Type.
Variable year : time -> Z.

Lemma first_true_spec (row : list bool) :
  existsb (fun b => b) row = true ->
  nth_error row (first_true row) = Some true
  /\ forall k, (k < first_true row)%nat -> nth_error row k = Some false.
Proof.
  induction row as [|b row IH]; [discriminate|].
  destruct b; cbn [existsb first_true orb].
  - intros _. split; [reflexivity|]. intros k Hk. lia.
  - intros H. rewrite H. destruct (IH H) as [Hn Hb].
    split; [exact Hn|]. intros [|k] Hk; [reflexivity|].
    apply Hb. lia.
Qed.

Lemma crossing_time_none (cols : list time) (row : list bool)
  (return_year : bool) :
  List.length row = List.length cols ->
  crossing_time time year cols row return_year = None
  <-> existsb (fun b => b) row = false.
Proof.
  intros Hl. unfold crossing_time.
  destruct (existsb (fun b => b) row) eqn:E.
  - destruct (first_true_spec row E) as [Hn _].
    assert (Hlt : (first_true row < List.length cols)%nat).
    { rewrite <- Hl. apply nth_error_Some. congruence. }
    apply nth_error_Some in Hlt.
    destruct (nth_error cols (first_true row)); [|contradiction].
    split; discriminate.
  - destruct (nth_error cols (first_true row)); tauto.
Qed.

Lemma crossing_times_rows (ts : frame time) (threshold : Q)
  (return_year : bool) :
  columns ts <> [] ->
  calculate_crossing_times time year ts threshold return_year
  = Ok (map (fun row => crossing_time time year (columns ts)
                          (map (fun x => gt x threshold) row) return_year)
            (rows ts)).
Proof.
  intros Hc. unfold calculate_crossing_times, _get_ts_gt_threshold.
  rewrite map_map.
  destruct (columns ts); [contradiction | reflexivity].
Qed.

(** X16: the crossing time of a row is the first time column at which
    the row is above the threshold (its year when asked), and not-a-number
    exactly when the row is never above the threshold. *)
Theorem crossing_time_is_first (ts : frame time) (threshold : Q)
  (return_year : bool) (r : nat) (row : list pyfloat)
  (Hcols : columns ts <> [])
  (Hrow : nth_error (rows ts) r = Some row)
  (Hlen : List.length row = List.length (columns ts)) :
  exists out,
    calculate_crossing_times time year ts threshold return_year = Ok out
    /\ ((nth_error out r = Some None
         /\ forall x, In x row -> gt x threshold = false)
        \/ exists k t,
             nth_error (columns ts) k = Some t
             /\ nth_error out r
                = Some (Some (if return_year then inr (year t) else inl t))
             /\ gt (nth k row None) threshold = true
             /\ forall k', (k' < k)%nat ->
                           gt (nth k' row None) threshold = false).
Proof.
  eexists. split; [now apply crossing_times_rows|].
  rewrite nth_error_map, Hrow. cbn [option_map].
  set (flags := map (fun x => gt x threshold) row).
  assert (Hflag : forall k, nth_error flags k
                            = Some (gt (nth k row None) threshold)
                            \/ nth_error flags k = None).
  { intros k. unfold flags. rewrite nth_error_map.
    destruct (nth_error row k) as [x|] eqn:E; [left | now right].
    now rewrite (nth_error_nth _ _ _ E). }
  unfold crossing_time.
  destruct (existsb (fun b => b) flags) eqn:E.
  - right. destruct (first_true_spec flags E) as [Hn Hb].
    assert (Hlt : (first_true flags < List.length (columns ts))%nat).
    { rewrite <- Hlen, <- (length_map (fun x => gt x threshold) row).
      apply nth_error_Some. fold flags. congruence. }
    destruct (nth_error (columns ts) (first_true flags)) as [t|] eqn:Et;
      [|apply nth_error_Some in Hlt; contradiction].
    exists (first_true flags), t.
    split; [exact Et|]. split; [reflexivity|]. split.
    + destruct (Hflag (first_true flags)) as [H|H]; congruence.
    + intros k' Hk. specialize (Hb k' Hk).
      destruct (Hflag k') as [H|H]; congruence.
  - left. split.
    + now destruct (nth_error (columns ts) (first_true flags)).
    + intros x Hx.
      assert (Hin : In (gt x threshold) flags)
        by (apply (in_map (fun y => gt y threshold)); exact Hx).
      destruct (gt x threshold) eqn:Eg; [|reflexivity].
      assert (existsb (fun b => b) flags = true)
        by (apply existsb_exists; exists true; auto).
      congruence.
Qed.

End CrossingFacts.

Lemma count_true_le (A : Type) (f g : A -> bool) (l : list A) :
  (forall a, In a l -> f a = true -> g a = true) ->
  (List.length (filter (fun b => b) (map f l))
   <= List.length (filter (fun b => b) (map g l)))%nat.
Proof.
  induction l as [|a l IH]; intros H; [apply le_n|].
  cbn [map filter].
  assert (IH' := IH (fun x Hx => H x (or_intror Hx))).
  specialize (H a (or_introl eq_refl)).
  destruct (f a), (g a); cbn [List.length];
    try lia; discriminate (H eq_refl).
Qed.

Lemma count_true_bound (l : list bool) :
  (List.length (filter (fun b => b) l) <= List.length l)%nat.
Proof.
  induction l as [|[] l IH]; cbn [filter List.length]; lia.
Qed.

Lemma fraction_le (a b m : nat) :
  (a <= b)%nat ->
  (inject_Z (Z.of_nat a) / inject_Z (Z.of_nat m)
   <= inject_Z (Z.of_nat b) / inject_Z (Z.of_nat m))%Q.
Proof.
  intros H. unfold Qdiv. apply Qmult_le_compat_r.
  - rewrite <- Zle_Qle. lia.
  - apply Qinv_le_0_compat. rewrite <- (Zle_Qle 0). lia.
Qed.

Lemma fraction_unit (a m : nat) :
  (a <= m)%nat ->
  (0 <= inject_Z (Z.of_nat a) / inject_Z (Z.of_nat m) <= 1)%Q.
Proof.
  intros H. split.
  - unfold Qdiv. apply Qmult_le_0_compat.
    + rewrite <- (Zle_Qle 0). lia.
    + apply Qinv_le_0_compat. rewrite <- (Zle_Qle 0). lia.
  - destruct m as [|m].
    + replace a with O by lia. discriminate.
    + apply Qle_shift_div_r.
      * rewrite <- (Zlt_Qlt 0). lia.
      * rewrite Qmult_1_l. rewrite <- Zle_Qle. lia.
Qed.

(** X17: at every time the exceedance probability over time is at most
    the exceedance probability over all time, and both lie between 0
    and 1. *)
Theorem exceedance_over_time_below_all_time (group : list (list pyfloat))
  (threshold : Q) (k : nat) :
  (exceedance_probability_at group threshold k
   <= exceedance_probability group threshold)%Q
  /\ (0 <= exceedance_probability_at group threshold k)%Q
  /\ (exceedance_probability group threshold <= 1)%Q.
Proof.
  unfold exceedance_probability_at, exceedance_probability,
    _get_exceedance_fraction.
  rewrite !length_map. split; [|split].
  - apply fraction_le, count_true_le.
    intros row _ Hk. apply existsb_exists.
    exists (nth k row None). split; [|exact Hk].
    destruct (Nat.lt_ge_cases k (List.length row)) as [Hlt|Hge].
    + now apply nth_In.
    + rewrite nth_overflow in Hk by assumption. discriminate Hk.
  - apply fraction_unit.
    rewrite <- (length_map (fun row => gt (nth k row None) threshold) group).
    apply count_true_bound.
  - apply fraction_unit.
    rewrite <- (length_map (existsb (fun x => gt x threshold)) group).
    apply count_true_bound.
Qed.

Section CrossingAndExceedance.

Variable time : Type.
Variable year : time -> Z.

Lemma existsb_map_id (A : Type) (f : A -> bool) (l : list A) :
  existsb (fun b => b) (map f l) = existsb f l.
Proof.
  induction l as [|a l IH]; [reflexivity|]. cbn. now rewrite IH.
Qed.

(** X18: the exceedance probability of a group is the number of its
    members with a crossing time over the number of its members. *)
Theorem exceedance_counts_crossings (cols : list time)
  (group : list (list pyfloat)) (threshold : Q) (return_year : bool)
  (Hcols : cols <> [])
  (Hrows : Forall (fun row => List.length row = List.length cols) group) :
  exists out,
    calculate_crossing_times time year (mkFrame cols group) threshold
      return_year = Ok out
    /\ exceedance_probability group threshold
       = (inject_Z (Z.of_nat (List.length (filter is_some out)))
          / inject_Z (Z.of_nat (List.length group)))%Q.
Proof.
  eexists. split; [now apply crossing_times_rows|].
  unfold exceedance_probability, _get_exceedance_fraction.
  rewrite length_map. cbn [columns rows]. do 3 f_equal.
  induction Hrows as [|row group Hrow _ IH]; [reflexivity|].
  cbn [map filter].
  assert (Hc : is_some (crossing_time time year cols
                          (map (fun x => gt x threshold) row) return_year)
               = existsb (fun x => gt x threshold) row).
  { rewrite <- existsb_map_id.
    pose proof (crossing_time_none time year cols
                  (map (fun x => gt x threshold) row) return_year) as Hn.
    rewrite length_map in Hn. specialize (Hn Hrow).
    destruct (crossing_time _ _ _ _ _);
      destruct (existsb (fun b => b) _); cbn [is_some]; try reflexivity.
    - discriminate (proj2 Hn eq_refl).
    - discriminate (proj1 Hn eq_refl). }
  rewrite Hc. destruct (existsb _ row); cbn [List.length]; now rewrite IH.
Qed.

End CrossingAndExceedance.

(** ** Instances of the further properties *)

Lemma pattern_match_mask_length_witness :
  List.length [true; false; true]
  = List.length
      (codes (mkIndex [LStr (F := Empty_set) (str "a|b"); LStr (str "c")]
                true [0; 1; 0])).
Proof.
  exact (pattern_match_mask_length
           (mkIndex [LStr (F := Empty_set) (str "a|b"); LStr (str "c")]
              true [0; 1; 0])
           (Single (VStr (str "a|*"))) None false HIERARCHY_SEPARATOR
           [true; false; true] eq_refl).
Defined.

Lemma pattern_match_values_union_witness :
  pattern_match
    (mkIndex [LStr (F := Empty_set) (str "a|b"); LStr (str "c")] true
       [0; 1; -1])
    (Many [VStr (str "a|*"); VStr []]) None false HIERARCHY_SEPARATOR
  = Ok [true; false; true].
Proof.
  exact (pattern_match_values_union
           (mkIndex [LStr (F := Empty_set) (str "a|b"); LStr (str "c")]
              true [0; 1; -1])
           (VStr (str "a|*")) [VStr []] None false HIERARCHY_SEPARATOR
           [true; false; false] [false; false; true] eq_refl eq_refl).
Defined.

Lemma pattern_match_skips_missing_rows_witness :
  nth_error [true; false; false] 2 = Some false.
Proof.
  exact (pattern_match_skips_missing_rows
           (mkIndex [LStr (F := Empty_set) (str "a|b"); LStr (str "c")]
              true [0; 1; -1])
           (VStr (str "*")) (Some (LvInt 1)) false HIERARCHY_SEPARATOR
           [true; false; false] 2 (-1) eq_refl eq_refl eq_refl eq_refl
           eq_refl).
Defined.

Lemma pattern_match_level_narrows_witness :
  nth_error [true; true; false] 0 = Some true.
Proof.
  exact (pattern_match_level_narrows
           (mkIndex [LStr (F := Empty_set) (str "a|b"); LStr (str "a|b|c")]
              true [0; 1; -1])
           (VStr (str "a|*")) (LvInt 0) false HIERARCHY_SEPARATOR
           [true; false; false] [true; true; false] 0
           eq_refl eq_refl eq_refl).
Defined.

Lemma star_with_level_selects_by_depth_witness :
  pattern_match
    (mkIndex (F := Empty_set)
       (map LStr [str "World"; str "World|R5"; str "World|R5|ASIA"]) true
       [0; 1; 2; -1; 1])
    (Single (VStr (str "*"))) (Some (LvStr (str "1-"))) false
    HIERARCHY_SEPARATOR
  = Ok [true; true; false; false; true].
Proof.
  exact (star_with_level_selects_by_depth (F := Empty_set) true
           [0; 1; 2; -1; 1]
           [str "World"; str "World|R5"; str "World|R5|ASIA"]
           (LvStr (str "1-")) HIERARCHY_SEPARATOR (fun x => 1 >=? x)
           eq_refl eq_refl).
Defined.

Lemma pattern_match_glob_rows_witness :
  pattern_match
    (mkIndex (F := Empty_set)
       (map LStr [str "a|b|c"; str "a|b"; str "x.y"]) true [0; 1; -1; 2])
    (Single (VStr (str "a|*|c"))) None false HIERARCHY_SEPARATOR
  = Ok [true; false; false; false].
Proof.
  exact (pattern_match_glob_rows (F := Empty_set) true [0; 1; -1; 2]
           [str "a|b|c"; str "a|b"; str "x.y"] (str "a|*|c")
           HIERARCHY_SEPARATOR ltac:(discriminate) ltac:(discriminate)
           eq_refl eq_refl).
Defined.

Lemma time_match_one_range_witness :
  month_match [PInt 1; PInt 2; PInt 4; PInt 12]
    (PList [PStr (str "Jan"); PStr (str "Mar-May"); PStr (str "DEC")])
  = Ok [true; false; true; true].
Proof.
  exact (proj1 (time_match_one_range [PInt 1; PInt 2; PInt 4; PInt 12]
                  (strptime_name month_abbr 1) [strptime_name month_name 1]
                  [str "Jan"] [str "DEC"] (str "Mar") (str "May")
                  [1] [12] 3 5
                  ltac:(repeat constructor) ltac:(repeat constructor)
                  eq_refl eq_refl eq_refl eq_refl eq_refl eq_refl
                  ltac:(discriminate))).
Defined.

Lemma month_day_match_two_ranges_witness :
  month_match [PInt 1]
    (PList [PStr (str "Nov-Dec"); PStr (str "Jun"); PStr (str "Jan-Feb")])
  <> Ok [true].
Proof.
  exact (proj1 (month_day_match_two_ranges [PInt 1] (str "Nov-Dec")
                  [PStr (str "Jun"); PStr (str "Jan-Feb")] [true]
                  (le_n 2))).
Defined.


Lemma generate_range_stuck_offset_witness :
  generate_range 0 259200 (Tick 86400 0) = Raise ValueError.
Proof.
  exact (generate_range_stuck_offset (Tick 86400 0) 0 259200
           ltac:(discriminate) ltac:(discriminate) ltac:(discriminate)).
Defined.



Lemma crossing_time_is_first_witness :
  exists out,
    calculate_crossing_times Z (fun t => t)
      (mkFrame [2000; 2010; 2020]
         [[Some (1 # 1); Some (8 # 5); Some (2 # 1)];
          [Some (1 # 1); None; Some (7 # 5)]])
      (3 # 2) true = Ok out
    /\ nth_error out 0 = Some (Some (inr 2010))
    /\ nth_error out 1 = Some None.
Proof.
  destruct (crossing_time_is_first Z (fun t => t)
              (mkFrame [2000; 2010; 2020]
                 [[Some (1 # 1); Some (8 # 5); Some (2 # 1)];
                  [Some (1 # 1); None; Some (7 # 5)]])
              (3 # 2) true 0 [Some (1 # 1); Some (8 # 5); Some (2 # 1)]
              ltac:(discriminate) eq_refl eq_refl) as (out & Hout & _).
  exists out. split; [exact Hout|].
  injection Hout as <-. split; reflexivity.
Defined.

Lemma exceedance_counts_crossings_witness :
  exists out,
    calculate_crossing_times Z (fun t => t)
      (mkFrame [2000; 2010]
         [[Some (1 # 1); Some (8 # 5)]; [Some (1 # 1); Some (7 # 5)]])
      (3 # 2) true = Ok out
    /\ exceedance_probability
         [[Some (1 # 1); Some (8 # 5)]; [Some (1 # 1); Some (7 # 5)]]
         (3 # 2)
       = (inject_Z (Z.of_nat (List.length (filter is_some out)))
          / inject_Z (Z.of_nat 2))%Q.
Proof.
  exact (exceedance_counts_crossings Z (fun t => t) [2000; 2010]
           [[Some (1 # 1); Some (8 # 5)]; [Some (1 # 1); Some (7 # 5)]]
           (3 # 2) true ltac:(discriminate)
           ltac:(repeat constructor)).
Defined.

Lemma time_match_mixed_names_witness :
  month_match [PInt 3; PInt 4] (PList [PStr (str "Mar"); PStr (str "April")])
  = Raise ValueError.
Proof.
  exact (time_match_mixed_names [PInt 3; PInt 4]
           (strptime_name month_abbr 1) (strptime_name month_name 1)
           [str "Mar"; str "April"] (str "April") (str "Mar")
           ltac:(repeat constructor) ltac:(right; left; reflexivity)
           ltac:(left; reflexivity) eq_refl eq_refl).
Defined.
